(** * EB_vocode: the speech I/O bridge and the call orchestration

    A shallow embedding of the three entry scripts of the repository
    ([main.py], [main1.py], [main_aws.py]).  The Python code talks to
    external collaborators (AWS Polly, AWS Transcribe, the telephony
    library, the web framework); each collaborator is modelled by the
    outcomes of its calls, and every call the code makes is recorded in a
    chronological trace, so that statements such as "exactly one call" or
    "nothing was constructed" are statements about that trace. *)

From Stdlib Require Import String Ascii List ZArith QArith Bool Lia.
From Stdlib Require Import DecimalString DecimalZ.
Import ListNotations.
Local Open Scope string_scope.
Local Open Scope list_scope.

(* ================================================================== *)
(** ** Python values, exceptions and effects *)
(* ================================================================== *)

Module Py.

(** An instance of Python's [Exception] class: what [except Exception]
    catches.  [exc_type] is the class name, [exc_str] is [str(e)]. *)
Record PyException : Type := mkExc { exc_type : string; exc_str : string }.

(** The result of evaluating a Python expression or call. *)
Inductive Outcome (A : Type) : Type :=
| Return (a : A)
| Raise (e : PyException).
Arguments Return {A} a.
Arguments Raise {A} e.

(** Values produced by [json.loads] / [Response.json()].  A parsed
    object has unique keys; it is kept as an association list and
    looked up from the left.  Numbers are kept as integers: the code
    never reads one. *)
#[warnings="-register-all"]
Inductive Json : Type :=
| JNull
| JBool (b : bool)
| JNum (n : Z)
| JStr (s : string)
| JArr (items : list Json)
| JObj (fields : list (string * Json)).

Inductive Level : Type := DEBUG | ERROR.

(** What an f-string interpolates into a log message. *)
Inductive LogArg : Type :=
| NoArg
| ArgStr (s : string)
| ArgExc (e : PyException)
| ArgJson (j : Json).

(** Keyword arguments of [OutboundCall(...)].  [main.py] passes a
    Twilio configuration and a synthesizer configuration,
    [main_aws.py] passes the two AWS callables instead. *)
Inductive SpeechWiring : Type :=
| ElevenLabsConfig
| AwsCallables.

Record OutboundCallArgs : Type := mkCallArgs {
  base_url : string;
  to_phone : string;
  from_phone : string;
  wiring : SpeechWiring
}.

(** Calls on external collaborators and log records, as the code
    issues them. *)
Inductive Event : Type :=
| Log (lvl : Level) (msg : string) (arg : LogArg)
| PollySynthesizeSpeech (text voice_id output_format : string)
| AudioStreamRead
| StartStreamTranscription (language_code : string) (sample_rate_hz : Z)
                           (media_encoding : string)
| StartTranscriptionJob (job_name media_uri media_format language_code : string)
| GetTranscriptionJob (job_name : string)
| Sleep (seconds : Z)
| HttpGet (url : string)
| OutboundCallInit (args : OutboundCallArgs)
| OutboundCallStart (args : OutboundCallArgs)
| RequestJson.

Definition Trace : Type := list Event.

(** Computations: they extend the trace and either return or raise. *)
Definition M (A : Type) : Type := Trace -> Outcome A * Trace.

Definition ret {A} (a : A) : M A := fun tr => (Return a, tr).

Definition raise {A} (e : PyException) : M A := fun tr => (Raise e, tr).

Definition bind {A B} (m : M A) (k : A -> M B) : M B :=
  fun tr =>
    match m tr with
    | (Return a, tr') => k a tr'
    | (Raise e, tr') => (Raise e, tr')
    end.

Definition emit (ev : Event) : M unit := fun tr => (Return tt, tr ++ [ev]).

Definition lift {A} (o : Outcome A) : M A := fun tr => (o, tr).

(** A call on a collaborator: recorded, then the collaborator's
    outcome. *)
Definition call {A} (ev : Event) (o : Outcome A) : M A :=
  bind (emit ev) (fun _ => lift o).

(** [try: body / except Exception as e: handler e]. *)
Definition try_except {A} (body : M A) (handler : PyException -> M A) : M A :=
  fun tr =>
    match body tr with
    | (Return a, tr') => (Return a, tr')
    | (Raise e, tr') => handler e tr'
    end.

Definition logger_debug (msg : string) (arg : LogArg) : M unit :=
  emit (Log DEBUG msg arg).

Definition logger_error (msg : string) (arg : LogArg) : M unit :=
  emit (Log ERROR msg arg).

(** [for x in xs: acc = body acc x], stopping at the first raise. *)
Fixpoint for_each {A S} (body : S -> A -> M S) (xs : list A) (acc : S) : M S :=
  match xs with
  | [] => ret acc
  | x :: xs' => bind (body acc x) (for_each body xs')
  end.

(** [sep.join(parts)]. *)
Definition join (sep : string) (parts : list string) : string :=
  String.concat sep parts.

(** Number of events of a trace that satisfy a test. *)
Definition count (p : Event -> bool) (tr : Trace) : nat :=
  List.length (filter p tr).

Definition is_polly_call (ev : Event) : bool :=
  match ev with PollySynthesizeSpeech _ _ _ => true | _ => false end.

Definition is_start_stream (ev : Event) : bool :=
  match ev with StartStreamTranscription _ _ _ => true | _ => false end.

Definition is_http_get (ev : Event) : bool :=
  match ev with HttpGet _ => true | _ => false end.

(** Sequencing of outcomes: the second step runs when the first
    returned. *)
Definition and_then {A B} (o : Outcome A) (k : A -> Outcome B) : Outcome B :=
  match o with
  | Return a => k a
  | Raise e => Raise e
  end.

(** [obj[key]] for a string key, with Python's failures. *)
Fixpoint dict_get (fields : list (string * Json)) (key : string) : option Json :=
  match fields with
  | [] => None
  | (k, v) :: rest => if String.eqb k key then Some v else dict_get rest key
  end.

Definition getitem_key (obj : Json) (key : string) : Outcome Json :=
  match obj with
  | JObj fields =>
      match dict_get fields key with
      | Some v => Return v
      | None => Raise (mkExc "KeyError" key)
      end
  | JArr _ => Raise (mkExc "TypeError" "list indices must be integers or slices, not str")
  | JStr _ => Raise (mkExc "TypeError" "string indices must be integers")
  | _ => Raise (mkExc "TypeError" "object is not subscriptable")
  end.

(** [obj[0]], with Python's failures (the keys of a parsed object are
    strings, so [0] is never one of them). *)
Definition getitem_0 (obj : Json) : Outcome Json :=
  match obj with
  | JArr (x :: _) => Return x
  | JArr [] => Raise (mkExc "IndexError" "list index out of range")
  | JStr (String c _) => Return (JStr (String c EmptyString))
  | JStr EmptyString => Raise (mkExc "IndexError" "string index out of range")
  | JObj _ => Raise (mkExc "KeyError" "0")
  | _ => Raise (mkExc "TypeError" "object is not subscriptable")
  end.

(** [Optional[str]] in a condition: [None] and [""] are false. *)
Definition truthy (s : option string) : bool :=
  match s with
  | None => false
  | Some EmptyString => false
  | Some (String _ _) => true
  end.

(** [f"{n}"] for an integer: decimal digits, with a minus sign below
    zero. *)
Definition str_of_int (n : Z) : string :=
  NilEmpty.string_of_int (Z.to_int n).

(** [int(x)] for a clock reading: truncation towards zero.  A reading is
    a finite float, hence a rational. *)
Definition int_of_float (x : Q) : Z :=
  Z.quot (Qnum x) (Z.pos (Qden x)).

End Py.

Import Py.

Declare Scope py_scope.
Delimit Scope py_scope with py.
Notation "x <- m ;; k" := (bind m (fun x => k))
  (at level 61, m at next level, right associativity) : py_scope.
Notation "m ;;; k" := (bind m (fun _ => k))
  (at level 61, right associativity) : py_scope.
Local Open Scope py_scope.

(* ================================================================== *)
(** ** main1.py: streaming transcription and Polly synthesis *)
(* ================================================================== *)

Module Main1.

(** The result model of the streaming SDK, as far as the handler reads
    it: [transcript_event.transcript.results], [result.is_partial]
    (an optional boolean), [result.alternatives], [alt.transcript]. *)
Record Alternative : Type := mkAlt { transcript : string }.

Record Result : Type := mkResult {
  is_partial : option bool;
  alternatives : list Alternative
}.

Record TranscriptEvent : Type := mkEvent { results : list Result }.

(** One step of the provider's event source: the next event, or a
    provider fault raised while waiting for it. *)
Inductive StreamItem : Type :=
| Item (ev : TranscriptEvent)
| Fault (e : PyException).

(** [result.is_partial is False]. *)
Definition is_partial_is_False (r : Result) : bool :=
  match is_partial r with
  | Some false => true
  | _ => false
  end.

(** Body of the [for result in results] loop; [transcription] is
    [self.transcription]. *)
Definition handle_result (transcription : string) (r : Result) : M string :=
  if is_partial_is_False r then
    let transcription' :=
      (transcription ++ join " " (map transcript (alternatives r)))%string in
    logger_debug "Transcription so far: " (ArgStr transcription') ;;;
    ret transcription'
  else ret transcription.

(** [MyTranscriptResultHandler.handle_transcript_event]. *)
Definition handle_transcript_event (transcription : string)
    (transcript_event : TranscriptEvent) : M string :=
  for_each handle_result (results transcript_event) transcription.

(** [handler.handle_events()] of the SDK base class: every event of
    the source is passed to [handle_transcript_event], in order; a
    fault of the source propagates. *)
Fixpoint handle_events (transcription : string) (source : list StreamItem)
    : M string :=
  match source with
  | [] => ret transcription
  | Item ev :: rest =>
      t <- handle_transcript_event transcription ev ;;
      handle_events t rest
  | Fault e :: _ => raise e
  end.

(** [MyTranscriptResultHandler.__init__]: [self.transcription = ""]. *)
Definition init_transcription : string := "".

(** The streaming provider: the outcome of
    [start_stream_transcription] for an audio stream, which is the
    event source of the session. *)
Definition StreamingProvider : Type :=
  list (list Byte.byte) -> Outcome (list StreamItem).

(** [transcribe_audio_stream]. *)
Definition transcribe_audio_stream (provider : StreamingProvider)
    (audio_stream : list (list Byte.byte)) : M string :=
  try_except
    (result_stream <- call (StartStreamTranscription "en-US" 8000 "pcm")
                           (provider audio_stream) ;;
     handle_events init_transcription result_stream)
    (fun e =>
       logger_error "Error in Transcribe streaming: " (ArgExc e) ;;;
       raise e).

(** [CustomTranscriber.transcribe]. *)
Definition CustomTranscriber_transcribe := transcribe_audio_stream.

(** The transcript a fault-free run over [events] hands back. *)
Definition final_transcript (events : list TranscriptEvent) : Outcome string :=
  fst (handle_events init_transcription (map Item events) []).

(** The text the handler has built from [events]: every result with
    [is_partial is False] gives the space-join of its alternatives, and
    these texts follow one another directly, in arrival order. *)
Definition alternatives_text (r : Result) : string :=
  join " " (map transcript (alternatives r)).

Definition accumulated (events : list TranscriptEvent) : string :=
  join "" (map alternatives_text
             (filter is_partial_is_False (flat_map results events))).

(** Transcript of the specification's wording: the best (first)
    alternative of every non-partial result, joined by single spaces. *)
Definition best_alternative (r : Result) : string :=
  match alternatives r with
  | a :: _ => transcript a
  | [] => ""
  end.

Definition spec_transcript (events : list TranscriptEvent) : string :=
  join " " (map best_alternative
              (filter is_partial_is_False (flat_map results events))).

(** The provider's first fault, if it has one: at session start or
    while delivering events. *)
Fixpoint first_fault (source : list StreamItem) : option PyException :=
  match source with
  | [] => None
  | Item _ :: rest => first_fault rest
  | Fault e :: _ => Some e
  end.

Fixpoint delivered (source : list StreamItem) : list TranscriptEvent :=
  match source with
  | Item ev :: rest => ev :: delivered rest
  | _ => []
  end.

(** The fault and the delivered events of one session. *)
Definition session_fault (provider : StreamingProvider)
    (audio_stream : list (list Byte.byte)) : option PyException :=
  match provider audio_stream with
  | Raise e => Some e
  | Return source => first_fault source
  end.

Definition session_events (provider : StreamingProvider)
    (audio_stream : list (list Byte.byte)) : list TranscriptEvent :=
  match provider audio_stream with
  | Raise _ => []
  | Return source => delivered source
  end.

(** The Polly client: outcome of [synthesize_speech(...)], and of
    [response["AudioStream"].read()] on its response. *)
Record PollyResponse : Type := mkPollyResponse {
  AudioStream_read : Outcome (list Byte.byte)
}.

Definition PollyClient : Type := string -> string -> string -> Outcome PollyResponse.

(** What the provider answers to one synthesis request: the bytes of the
    whole audio stream, or its failure. *)
Definition provider_answer (polly_client : PollyClient)
    (text voice_id output_format : string) : Outcome (list Byte.byte) :=
  and_then (polly_client text voice_id output_format) AudioStream_read.

(** [synthesize_speech(text, voice_id="Joanna", output_format="mp3")]. *)
Definition synthesize_speech (polly_client : PollyClient)
    (text voice_id output_format : string) : M (list Byte.byte) :=
  try_except
    (response <- call (PollySynthesizeSpeech text voice_id output_format)
                      (polly_client text voice_id output_format) ;;
     audio_stream <- call AudioStreamRead (AudioStream_read response) ;;
     logger_debug "Polly synthesis successful" NoArg ;;;
     ret audio_stream)
    (fun e =>
       logger_error "Error in Polly TTS: " (ArgExc e) ;;;
       raise e).

(** [CustomSynthesizer.synthesize]: the defaults are taken. *)
Definition CustomSynthesizer_synthesize (polly_client : PollyClient)
    (text : string) : M (list Byte.byte) :=
  synthesize_speech polly_client text "Joanna" "mp3".

End Main1.

(* ================================================================== *)
(** ** main_aws.py: batch transcription, Polly synthesis, outbound calls *)
(* ================================================================== *)

Module MainAws.

Definition PollyResponse := Main1.PollyResponse.
Definition PollyClient := Main1.PollyClient.

(** [AWSPollySynthesizer.synthesize]. *)
Definition synthesize (polly_client : PollyClient) (text : string)
    : M (list Byte.byte) :=
  try_except
    (response <- call (PollySynthesizeSpeech text "Joanna" "mp3")
                      (polly_client text "Joanna" "mp3") ;;
     call AudioStreamRead (Main1.AudioStream_read response))
    (fun e =>
       logger_error "Error synthesizing speech with AWS Polly: " (ArgExc e) ;;;
       raise e).

(** What the code reads of a [get_transcription_job] response:
    [status["TranscriptionJob"]["TranscriptionJobStatus"]] and, when
    present, [status["TranscriptionJob"]["Transcript"]["TranscriptFileUri"]]. *)
Record JobStatus : Type := mkJobStatus {
  TranscriptionJobStatus : string;
  TranscriptFileUri : option string
}.

(** [requests.get(url)] gives a response whose [.json()] parses the body
    or raises. *)
Record HttpResponse : Type := mkHttpResponse { json : Outcome Json }.

(** The world around one invocation of [transcribe_audio]: the clock
    reading of [time.time()], the Transcribe client (the outcome of
    submitting a job, and the responses of the successive status
    queries, in order) and the HTTP client. *)
Record BatchWorld : Type := mkBatchWorld {
  time_time : Q;
  start_transcription_job : string -> string -> Outcome unit;
  get_transcription_job : list (Outcome JobStatus);
  requests_get : string -> Outcome HttpResponse
}.

(** [f"transcription_job_{int(time.time())}"]. *)
Definition job_name_at (now : Q) : string :=
  ("transcription_job_" ++ str_of_int (int_of_float now))%string.

(** [status in ["COMPLETED", "FAILED"]]. *)
Definition is_terminal (status : string) : bool :=
  existsb (String.eqb status) ["COMPLETED"; "FAILED"].

(** The [while True] loop.  Each iteration consumes the next response of
    the Transcribe client; [None] is returned when the listed responses
    are used up and the loop is still polling. *)
Fixpoint poll (job_name : string) (responses : list (Outcome JobStatus))
    : M (option JobStatus) :=
  match responses with
  | [] => ret None
  | response :: later =>
      status <- call (GetTranscriptionJob job_name) response ;;
      if is_terminal (TranscriptionJobStatus status)
      then ret (Some status)
      else emit (Sleep 5) ;;; poll job_name later
  end.

(** [body["results"]["transcripts"][0]["transcript"]]. *)
Definition transcript_field (body : Json) : Outcome Json :=
  and_then (getitem_key body "results") (fun results =>
  and_then (getitem_key results "transcripts") (fun transcripts =>
  and_then (getitem_0 transcripts) (fun first =>
  getitem_key first "transcript"))).

(** [requests.get(transcript_url).json()["results"]["transcripts"][0]["transcript"]]. *)
Definition fetch_transcript (w : BatchWorld) (transcript_url : string) : M Json :=
  response <- call (HttpGet transcript_url) (requests_get w transcript_url) ;;
  body <- lift (json response) ;;
  lift (transcript_field body).

(** [AWSTranscribeHelper.transcribe_audio].  The result is [None] when
    the function has not returned within the listed responses. *)
Definition transcribe_audio (w : BatchWorld) (audio_file_url : string)
    : M (option Json) :=
  try_except
    (let job_name := job_name_at (time_time w) in
     call (StartTranscriptionJob job_name audio_file_url "mp3" "en-US")
          (start_transcription_job w job_name audio_file_url) ;;;
     polled <- poll job_name (get_transcription_job w) ;;
     match polled with
     | None => ret None
     | Some status =>
         if String.eqb (TranscriptionJobStatus status) "COMPLETED" then
           transcript_url <-
             lift (match TranscriptFileUri status with
                   | Some url => Return url
                   | None => Raise (mkExc "KeyError" "Transcript")
                   end) ;;
           transcript <- fetch_transcript w transcript_url ;;
           ret (Some transcript)
         else raise (mkExc "Exception" "Transcription job failed.")
     end)
    (fun e =>
       logger_error "Error transcribing audio with AWS Transcribe: " (ArgExc e) ;;;
       raise e).

(** The job name an invocation submitted: the name of the first
    [start_transcription_job] call of its trace. *)
Fixpoint submitted_job_name (tr : Trace) : option string :=
  match tr with
  | [] => None
  | StartTranscriptionJob name _ _ _ :: _ => Some name
  | _ :: rest => submitted_job_name rest
  end.

(** The calls of [n] loop iterations that did not see a terminal
    status: a status query, then [time.sleep(5)]. *)
Fixpoint polling_rounds (job_name : string) (n : nat) : Trace :=
  match n with
  | O => []
  | S k => GetTranscriptionJob job_name :: Sleep 5 :: polling_rounds job_name k
  end.

Definition non_terminal (s : JobStatus) : Prop :=
  is_terminal (TranscriptionJobStatus s) = false.

(** Process-wide settings read by [start_outbound_call]. *)
Record Settings : Type := mkSettings {
  BASE_URL : string;
  TWILIO_PHONE : string
}.

(** The telephony collaborator: outcome of constructing an
    [OutboundCall] and of its [start()]. *)
Record Telephony : Type := mkTelephony {
  OutboundCall_init : OutboundCallArgs -> Outcome unit;
  OutboundCall_start : OutboundCallArgs -> Outcome unit
}.

(** [start_outbound_call(to_phone: Optional[str])]; it returns [None]. *)
Definition start_outbound_call (cfg : Settings) (tel : Telephony)
    (to_phone : option string) : M unit :=
  match to_phone with
  | Some number =>
      if truthy to_phone then
        try_except
          (let args := mkCallArgs (BASE_URL cfg) number (TWILIO_PHONE cfg)
                                  AwsCallables in
           call (OutboundCallInit args) (OutboundCall_init tel args) ;;;
           call (OutboundCallStart args) (OutboundCall_start tel args) ;;;
           logger_debug "Outbound call started to " (ArgStr number))
          (fun e => logger_error "Error starting outbound call: " (ArgExc e))
      else ret tt
  | None => ret tt
  end.

(** A JSON response body with string values. *)
Definition Response : Type := list (string * string).

(** [POST /start_outbound_call]. *)
Definition api_start_outbound_call (cfg : Settings) (tel : Telephony)
    (to_phone : option string) : M Response :=
  start_outbound_call cfg tel to_phone ;;;
  ret [("status", "success")].

(** An incoming request: the outcome of [await request.json()]. *)
Record Request : Type := mkRequest { request_json : Outcome Json }.

(** The function [inbound_call], registered with
    [@app.post("/inbound_call")]: what it does when it is invoked.
    Which function serves a request is decided by the order of the
    routes, see [Routing]. *)
Definition inbound_call (request : Request) : M Response :=
  try_except
    (payload <- call RequestJson (request_json request) ;;
     logger_debug "Inbound call payload: " (ArgJson payload) ;;;
     ret [("status", "call received")])
    (fun e =>
       logger_error "Error processing inbound call: " (ArgExc e) ;;;
       ret [("status", "error")]).

End MainAws.

(* ================================================================== *)
(** ** main.py: outbound calls with the ElevenLabs configuration *)
(* ================================================================== *)

Module Main.

Definition Settings := MainAws.Settings.
Definition Telephony := MainAws.Telephony.
Definition Response := MainAws.Response.
Definition Request := MainAws.Request.

(** [start_outbound_call(to_phone: Optional[str])]; it returns [None]. *)
Definition start_outbound_call (cfg : Settings) (tel : Telephony)
    (to_phone : option string) : M unit :=
  match to_phone with
  | Some number =>
      if truthy to_phone then
        try_except
          (let args := mkCallArgs (MainAws.BASE_URL cfg) number
                                  (MainAws.TWILIO_PHONE cfg) ElevenLabsConfig in
           call (OutboundCallInit args) (MainAws.OutboundCall_init tel args) ;;;
           call (OutboundCallStart args) (MainAws.OutboundCall_start tel args) ;;;
           logger_debug "Outbound call started to " (ArgStr number))
          (fun e => logger_error "Error starting outbound call: " (ArgExc e))
      else ret tt
  | None => ret tt
  end.

(** [POST /start_outbound_call]. *)
Definition api_start_outbound_call (cfg : Settings) (tel : Telephony)
    (to_phone : option string) : M Response :=
  start_outbound_call cfg tel to_phone ;;;
  ret [("status", "success")].

(** The function [inbound_call], registered with
    [@app.post("/inbound_call")]: what it does when it is invoked.
    Which function serves a request is decided by the order of the
    routes, see [Routing]. *)
Definition inbound_call (request : Request) : M Response :=
  try_except
    (payload <- call RequestJson (MainAws.request_json request) ;;
     logger_debug "Inbound call payload: " (ArgJson payload) ;;;
     ret [("status", "call received")])
    (fun e =>
       logger_error "Error processing inbound call: " (ArgExc e) ;;;
       ret [("status", "error")]).

End Main.

(* ================================================================== *)
(** ** The start-up block shared by main.py, main1.py and main_aws.py *)
(* ================================================================== *)

Module Boot.

(** [os.environ] once [load_dotenv()] has run; [os.getenv(key)] is
    [env key]. *)
Definition Env : Type := string -> option string.

(** [os.getenv(key, default)]: the default is taken only when the
    variable is absent (a variable set to [""] gives [""]). *)
Definition getenv_default (env : Env) (key default : string) : string :=
  match env key with
  | Some v => v
  | None => default
  end.

(** The value of [port]: an element of [sys.argv] (a string) or the
    integer [3000]. *)
Inductive Port : Type :=
| PortArg (s : string)
| PortDefault (n : Z).

(** Calls of the start-up block on ngrok, and its log record. *)
Inductive BootEvent : Type :=
| NgrokSetAuthToken (token : string)
| NgrokConnect (port : Port)
| BootLog (lvl : Level) (msg : string) (arg : LogArg).

(** The ngrok collaborator: [ngrok.set_auth_token(token)] and
    [ngrok.connect(port).public_url]. *)
Record Ngrok : Type := mkNgrok {
  set_auth_token : string -> Outcome unit;
  connect_public_url : Port -> Outcome string
}.

(** Start-up computations, over their own trace. *)
Definition B (A : Type) : Type := list BootEvent -> Outcome A * list BootEvent.

Definition bret {A} (a : A) : B A := fun tr => (Return a, tr).

Definition bbind {A C} (m : B A) (k : A -> B C) : B C :=
  fun tr =>
    match m tr with
    | (Return a, tr') => k a tr'
    | (Raise e, tr') => (Raise e, tr')
    end.

Definition bcall {A} (ev : BootEvent) (o : Outcome A) : B A :=
  fun tr => (o, tr ++ [ev]).

Definition blift {A} (o : Outcome A) : B A := fun tr => (o, tr).

(** [x in xs] for strings. *)
Definition contains (x : string) (xs : list string) : bool :=
  existsb (String.eqb x) xs.

(** [xs.index(x)]: the position of the first occurrence; [ValueError]
    when there is none. *)
Fixpoint list_index (x : string) (xs : list string) : Outcome nat :=
  match xs with
  | [] => Raise (mkExc "ValueError" "is not in list")
  | y :: ys =>
      if String.eqb y x then Return O
      else and_then (list_index x ys) (fun i => Return (S i))
  end.

(** [xs[i]] for a non-negative index. *)
Definition list_getitem (xs : list string) (i : nat) : Outcome string :=
  match nth_error xs i with
  | Some v => Return v
  | None => Raise (mkExc "IndexError" "list index out of range")
  end.

(** [sys.argv[sys.argv.index("--port") + 1] if "--port" in sys.argv else 3000]. *)
Definition port_of_argv (argv : list string) : Outcome Port :=
  if contains "--port" argv then
    and_then (list_index "--port" argv) (fun i =>
    and_then (list_getitem argv (i + 1)) (fun v =>
    Return (PortArg v)))
  else Return (PortDefault 3000).

(** [s.startswith(p)]. *)
Fixpoint startswith (s p : string) {struct p} : bool :=
  match p with
  | EmptyString => true
  | String a p' =>
      match s with
      | EmptyString => false
      | String b s' => Ascii.eqb a b && startswith s' p'
      end
  end.

(** [s.replace(old, new)] for a non-empty [old]: occurrences are
    replaced from left to right, without overlap.  [skip] counts the
    characters of a matched occurrence still to be dropped. *)
Fixpoint replace_from (old new : string) (skip : nat) (s : string) : string :=
  match s with
  | EmptyString => EmptyString
  | String c rest =>
      match skip with
      | S k => replace_from old new k rest
      | O =>
          if startswith s old
          then (new ++ replace_from old new (String.length old - 1) rest)%string
          else String c (replace_from old new 0 rest)
      end
  end.

Definition str_replace (old new s : string) : string :=
  replace_from old new 0 s.

(** The string held by an [Optional[str]] that passed a truth test. *)
Definition str_value (o : option string) : string :=
  match o with
  | Some v => v
  | None => ""
  end.

(** The body of [if not BASE_URL:]: the optional auth token, the port,
    the tunnel, and the public URL without ["https://"]. *)
Definition tunnel_base_url (env : Env) (argv : list string) (ngrok : Ngrok)
    : B string :=
  let ngrok_auth := env "NGROK_AUTH_TOKEN" in
  bbind (if truthy ngrok_auth
         then bcall (NgrokSetAuthToken (str_value ngrok_auth))
                    (set_auth_token ngrok (str_value ngrok_auth))
         else bret tt) (fun _ =>
  bbind (blift (port_of_argv argv)) (fun port =>
  bbind (bcall (NgrokConnect port) (connect_public_url ngrok port))
        (fun public_url =>
  bret (str_replace "https://" "" public_url)))).

(** The block
    [BASE_URL = os.getenv("BASE_URL")]
    [if not BASE_URL: ...]
    [logger.debug(f"BASE_URL set to: {BASE_URL}")],
    giving the final [BASE_URL].  Nothing is caught here: a raise ends
    the start-up. *)
Definition resolve_base_url (env : Env) (argv : list string) (ngrok : Ngrok)
    : B string :=
  let BASE_URL := env "BASE_URL" in
  bbind (if truthy BASE_URL then bret (str_value BASE_URL)
         else tunnel_base_url env argv ngrok) (fun BASE_URL =>
  bbind (bcall (BootLog DEBUG "BASE_URL set to: " (ArgStr BASE_URL)) (Return tt))
        (fun _ =>
  bret BASE_URL)).

(** Does [old] occur in [s]? *)
Fixpoint occurs (old s : string) : bool :=
  startswith s old
  || match s with
     | EmptyString => false
     | String _ rest => occurs old rest
     end.

(** The event of the optional [ngrok.set_auth_token(ngrok_auth)]: it
    is there when NGROK_AUTH_TOKEN is non-empty. *)
Definition auth_events (env : Env) : list BootEvent :=
  if truthy (env "NGROK_AUTH_TOKEN")
  then [NgrokSetAuthToken (str_value (env "NGROK_AUTH_TOKEN"))]
  else [].

(** [ngrok.set_auth_token], when it is called, returns. *)
Definition auth_returns (env : Env) (ngrok : Ngrok) : Prop :=
  truthy (env "NGROK_AUTH_TOKEN") = true ->
  set_auth_token ngrok (str_value (env "NGROK_AUTH_TOKEN")) = Return tt.

End Boot.

(* ================================================================== *)
(** ** The routes of the application (main.py, main_aws.py) *)
(* ================================================================== *)

Module Routing.

Inductive Method : Type := GET | POST.

(** What serves a route: a function of the telephony library's router,
    or one of the script's own functions. *)
Inductive Endpoint : Type :=
| TelephonyInbound (url : string)
| TelephonyOther (name : string)
| App_root
| App_api_start_outbound_call
| App_inbound_call.

Record Route : Type := mkRoute {
  route_method : Method;
  route_path : string;
  route_endpoint : Endpoint
}.

(** A route of the library's router other than its inbound-call routes:
    method, path and the name of the library function. *)
Definition library_route (r : Method * string * string) : Route :=
  let '(m, p, name) := r in mkRoute m p (TelephonyOther name).

(** [telephony_server.get_router()] for a server built with
    [inbound_call_configs=[TwilioInboundCallConfig(url=...), ...]]: the
    router answers POST at the url of every inbound-call configuration;
    [before] and [after] are the other routes the library registers. *)
Definition get_router (inbound_urls : list string)
    (before after : list (Method * string * string)) : list Route :=
  map library_route before
  ++ map (fun url => mkRoute POST url (TelephonyInbound url)) inbound_urls
  ++ map library_route after.

(** The routes of [app] in [main.py], in the order the script registers
    them: [app.include_router(telephony_server.get_router())] (line 85),
    then [@app.get("/")] (105), [@app.post("/start_outbound_call")]
    (117), [@app.post("/inbound_call")] (122). *)
Definition main_routes (before after : list (Method * string * string))
    : list Route :=
  get_router ["/inbound_call"] before after
  ++ [ mkRoute GET "/" App_root;
       mkRoute POST "/start_outbound_call" App_api_start_outbound_call;
       mkRoute POST "/inbound_call" App_inbound_call ].

(** The routes of [app] in [main_aws.py]: the router is included at line
    137, the decorators follow at lines 157, 169 and 174. *)
Definition main_aws_routes (before after : list (Method * string * string))
    : list Route :=
  get_router ["/inbound_call"] before after
  ++ [ mkRoute GET "/" App_root;
       mkRoute POST "/start_outbound_call" App_api_start_outbound_call;
       mkRoute POST "/inbound_call" App_inbound_call ].

Definition method_eqb (a b : Method) : bool :=
  match a, b with
  | GET, GET | POST, POST => true
  | _, _ => false
  end.

Definition matches (m : Method) (path : string) (r : Route) : bool :=
  method_eqb m (route_method r) && String.eqb path (route_path r).

(** The web framework serves a request with the first route, in
    registration order, that matches its method and path. *)
Definition dispatch (m : Method) (path : string) (routes : list Route)
    : option Endpoint :=
  option_map route_endpoint (find (matches m path) routes).

Definition is_library (e : Endpoint) : bool :=
  match e with
  | TelephonyInbound _ | TelephonyOther _ => true
  | _ => false
  end.

(** Is the request served by the script's [inbound_call]? *)
Definition reaches_inbound_call (served : option Endpoint) : bool :=
  match served with
  | Some App_inbound_call => true
  | _ => false
  end.

End Routing.

(* ================================================================== *)
(** ** Concrete runs used below *)
(* ================================================================== *)

Module Scenario.

Import MainAws.

Definition in_progress : JobStatus := mkJobStatus "IN_PROGRESS" None.

Definition failed : JobStatus := mkJobStatus "FAILED" None.

Definition completed : JobStatus :=
  mkJobStatus "COMPLETED" (Some "https://s3.example/transcript.json").

(** A result document as AWS Transcribe writes it. *)
Definition document : Json :=
  JObj [("jobName", JStr "transcription_job_1700000000");
        ("results",
         JObj [("transcripts", JArr [JObj [("transcript", JStr "hello world")]]);
               ("items", JArr [])]);
        ("status", JStr "COMPLETED")].

Definition healthy_http (url : string) : Outcome HttpResponse :=
  Return (mkHttpResponse (Return document)).

(** A job that is seen in progress twice and then completed; the clock
    reads 1700000000.25. *)
Definition completing : BatchWorld :=
  mkBatchWorld (6800000001 # 4) (fun _ _ => Return tt)
    [Return in_progress; Return in_progress; Return completed]
    healthy_http.

(** A job that is seen in progress once and then failed. *)
Definition failing : BatchWorld :=
  mkBatchWorld (6800000001 # 4) (fun _ _ => Return tt)
    [Return in_progress; Return failed]
    healthy_http.

(** Two invocations within the same second, at 1700000000.25 and
    1700000000.75; each job is still in progress at its first query. *)
Definition first_call : BatchWorld :=
  mkBatchWorld (6800000001 # 4) (fun _ _ => Return tt)
    [Return in_progress] healthy_http.

Definition second_call : BatchWorld :=
  mkBatchWorld (6800000003 # 4) (fun _ _ => Return tt)
    [Return in_progress] healthy_http.

(** A telephony collaborator whose [start()] raises. *)
Definition faulty_telephony : Telephony :=
  mkTelephony (fun _ => Return tt)
              (fun _ => Raise (mkExc "TwilioRestException" "Unable to create record")).

Definition settings : Settings := mkSettings "example.ngrok.io" "+15550000000".

End Scenario.

(* ================================================================== *)
(** ** Observations on traces *)
(* ================================================================== *)

Module Obs.

Definition is_log (ev : Event) : bool :=
  match ev with Log _ _ _ => true | _ => false end.

Definition is_error_log (ev : Event) : bool :=
  match ev with Log ERROR _ _ => true | _ => false end.

(** The calls on collaborators of a trace, without the log records. *)
Definition drop_logs (tr : Trace) : Trace :=
  filter (fun ev => negb (is_log ev)) tr.

(** The values [self.transcription] takes while [results] are handled,
    starting from [transcription]: one value per result whose
    [is_partial] is [False]. *)
Fixpoint running (transcription : string) (results : list Main1.Result)
    : list string :=
  match results with
  | [] => []
  | r :: later =>
      if Main1.is_partial_is_False r then
        let transcription' :=
          (transcription ++ Main1.alternatives_text r)%string in
        transcription' :: running transcription' later
      else running transcription later
  end.

(** The record [logger.debug(f"Transcription so far: {...}")]. *)
Definition so_far (transcription : string) : Event :=
  Log DEBUG "Transcription so far: " (ArgStr transcription).

(** The record the batch transcriber writes before re-raising. *)
Definition batch_error (e : PyException) : Event :=
  Log ERROR "Error transcribing audio with AWS Transcribe: " (ArgExc e).

(** What [start_outbound_call] does for a non-empty number, given the
    keyword arguments of the call. *)
Definition outbound_events (tel : MainAws.Telephony) (args : OutboundCallArgs)
    : Trace :=
  match MainAws.OutboundCall_init tel args with
  | Raise e =>
      [OutboundCallInit args;
       Log ERROR "Error starting outbound call: " (ArgExc e)]
  | Return _ =>
      match MainAws.OutboundCall_start tel args with
      | Raise e =>
          [OutboundCallInit args; OutboundCallStart args;
           Log ERROR "Error starting outbound call: " (ArgExc e)]
      | Return _ =>
          [OutboundCallInit args; OutboundCallStart args;
           Log DEBUG "Outbound call started to " (ArgStr (to_phone args))]
      end
  end.

End Obs.

(* ================================================================== *)
(** ** Further concrete runs *)
(* ================================================================== *)

Module Cases.

Import MainAws.

(** A job that AWS reports as QUEUED, then under a lower-case name. *)
Definition queued : JobStatus := mkJobStatus "QUEUED" None.

Definition lower_case_completed : JobStatus :=
  mkJobStatus "completed" (Some "https://s3.example/transcript.json").

Definition never_terminal : BatchWorld :=
  mkBatchWorld (6800000001 # 4) (fun _ _ => Return tt)
    [Return queued; Return Scenario.in_progress; Return lower_case_completed]
    Scenario.healthy_http.

Definition throttled : PyException :=
  mkExc "ClientError" "ThrottlingException".

(** The second status query raises. *)
Definition query_fails : BatchWorld :=
  mkBatchWorld (6800000001 # 4) (fun _ _ => Return tt)
    [Return Scenario.in_progress; Raise throttled; Return Scenario.completed]
    Scenario.healthy_http.

Definition no_env : Boot.Env := fun _ => None.

Definition env_with_base_url : Boot.Env :=
  fun key => if String.eqb key "BASE_URL" then Some "voice.example.org" else None.

Definition env_with_token : Boot.Env :=
  fun key => if String.eqb key "NGROK_AUTH_TOKEN" then Some "tok_1" else None.

Definition ngrok_ok : Boot.Ngrok :=
  Boot.mkNgrok (fun _ => Return tt) (fun _ => Return "https://abc.ngrok.io").

Definition ngrok_plain_http : Boot.Ngrok :=
  Boot.mkNgrok (fun _ => Return tt) (fun _ => Return "http://abc.ngrok.io").

End Cases.

(* ================================================================== *)
(** ** Facts about strings and the effect layer *)
(* ================================================================== *)

Section StringFacts.

Lemma append_empty_r (s : string) : (s ++ "")%string = s.
Proof. induction s as [| c s IH]; simpl; [reflexivity | now rewrite IH]. Qed.

Lemma append_assoc (a b c : string) :
  ((a ++ b) ++ c)%string = (a ++ (b ++ c))%string.
Proof. induction a as [| x a IH]; simpl; [reflexivity | now rewrite IH]. Qed.

Lemma append_inj_l (p a b : string) :
  (p ++ a)%string = (p ++ b)%string -> a = b.
Proof.
  induction p as [| x p IH]; simpl; intros H; [exact H |].
  apply IH. now inversion H.
Qed.

Lemma join_empty_cons (s : string) (l : list string) :
  join "" (s :: l) = (s ++ join "" l)%string.
Proof.
  unfold join. destruct l as [| t l]; simpl.
  - now rewrite append_empty_r.
  - reflexivity.
Qed.

Lemma str_of_int_inj (n m : Z) : str_of_int n = str_of_int m -> n = m.
Proof.
  unfold str_of_int. intros H.
  apply DecimalZ.to_int_inj.
  assert (E : NilEmpty.int_of_string (NilEmpty.string_of_int (Z.to_int n))
              = NilEmpty.int_of_string (NilEmpty.string_of_int (Z.to_int m)))
    by now rewrite H.
  rewrite !NilEmpty.isi in E. now inversion E.
Qed.

End StringFacts.

Section TraceFacts.

Lemma count_app (p : Event -> bool) (tr tr' : Trace) :
  count p (tr ++ tr') = (count p tr + count p tr')%nat.
Proof. unfold count. now rewrite filter_app, length_app. Qed.

Lemma count_snoc (p : Event -> bool) (tr : Trace) (ev : Event) :
  count p (tr ++ [ev]) = (count p tr + if p ev then 1 else 0)%nat.
Proof. rewrite count_app. unfold count. simpl. now destruct (p ev). Qed.

End TraceFacts.

(* ================================================================== *)
(** ** The transcript handler of main1.py *)
(* ================================================================== *)

Section Handler.

Import Main1.

(** One result extends the transcription by its own text, or leaves it
    alone, and logging is its only effect. *)
Lemma handle_result_run (t : string) (r : Result) (tr : Trace) :
  exists tr',
    handle_result t r tr =
      (Return (t ++ join "" (map alternatives_text
                               (filter is_partial_is_False [r])))%string, tr')
    /\ forall p, (forall l m a, p (Log l m a) = false) -> count p tr' = count p tr.
Proof.
  unfold handle_result. cbn [filter].
  destruct (is_partial_is_False r); cbn [map]; rewrite ?join_empty_cons;
    change (join "" []) with ""; rewrite !append_empty_r.
  - eexists. split.
    + unfold bind, logger_debug, emit, ret. reflexivity.
    + intros p Hp. rewrite count_snoc, Hp. lia.
  - exists tr. split; [| reflexivity].
    unfold ret. reflexivity.
Qed.

Lemma join_empty_app (l l' : list string) :
  join "" (l ++ l') = (join "" l ++ join "" l')%string.
Proof.
  induction l as [| s l IH].
  - reflexivity.
  - change ((s :: l) ++ l') with (s :: (l ++ l')).
    rewrite !join_empty_cons, IH. now rewrite append_assoc.
Qed.

Lemma for_each_handle_result_run (rs : list Result) :
  forall (t : string) (tr : Trace),
  exists tr',
    for_each handle_result rs t tr =
      (Return (t ++ join "" (map alternatives_text
                               (filter is_partial_is_False rs)))%string, tr')
    /\ forall p, (forall l m a, p (Log l m a) = false) -> count p tr' = count p tr.
Proof.
  induction rs as [| r rs IH]; intros t tr.
  - exists tr. split; [| reflexivity].
    simpl. unfold ret. now rewrite append_empty_r.
  - destruct (handle_result_run t r tr) as (tr1 & E1 & C1).
    destruct (IH (t ++ join "" (map alternatives_text
                                  (filter is_partial_is_False [r])))%string tr1)
      as (tr2 & E2 & C2).
    exists tr2. split.
    + simpl for_each. unfold bind at 1. rewrite E1, E2.
      rewrite append_assoc, <- join_empty_app, <- map_app, <- filter_app.
      reflexivity.
    + intros p Hp. now rewrite C2, C1.
Qed.

(** A source is its delivered events, followed by its first fault when
    it has one. *)
Lemma handle_events_source (source : list StreamItem) :
  forall (t : string) (tr : Trace),
  exists tr',
    handle_events t source tr =
      (match first_fault source with
       | Some e => Raise e
       | None => Return (t ++ accumulated (delivered source))%string
       end, tr')
    /\ forall p, (forall l m a, p (Log l m a) = false) -> count p tr' = count p tr.
Proof.
  induction source as [| [ev | e] source IH]; intros t tr.
  - exists tr. split; [| reflexivity].
    simpl. unfold ret, accumulated. simpl. now rewrite append_empty_r.
  - destruct (for_each_handle_result_run (results ev) t tr) as (tr1 & E1 & C1).
    destruct (IH (t ++ join "" (map alternatives_text
                                  (filter is_partial_is_False (results ev))))%string
                 tr1) as (tr2 & E2 & C2).
    exists tr2. split.
    + simpl. unfold bind at 1, handle_transcript_event. rewrite E1, E2.
      destruct (first_fault source); [reflexivity |].
      unfold accumulated. simpl flat_map.
      rewrite filter_app, map_app, join_empty_app, append_assoc. reflexivity.
    + intros p Hp. now rewrite C2, C1.
  - exists tr. split; reflexivity.
Qed.

Lemma first_fault_items (events : list TranscriptEvent) :
  first_fault (map Item events) = None.
Proof. induction events; simpl; auto. Qed.

Lemma delivered_items (events : list TranscriptEvent) :
  delivered (map Item events) = events.
Proof. induction events; simpl; congruence. Qed.

(** What the handler computes as it is written: only the results whose
    [is_partial] is [False] are used, in arrival order; each gives the
    [" "]-join of all its alternatives, and these texts are appended to
    one another as they are. *)
Lemma final_transcript_accumulates_final_results
    (events : list TranscriptEvent) :
  final_transcript events =
    Return (join ""
              (map (fun r => join " " (map transcript (alternatives r)))
                   (filter is_partial_is_False (flat_map results events)))).
Proof.
  unfold final_transcript.
  destruct (handle_events_source (map Item events) init_transcription [])
    as (tr' & E & _).
  rewrite E, first_fault_items, delivered_items. reflexivity.
Qed.

(** C1: the code breaks the claim.  The handler puts its [" "] between
    the alternatives of one result and nothing between successive
    results: on the specification's own example, the events
    [{partial,"hel"}, {final,"hello"}, {final,"world"}], it returns
    ["helloworld"] where the claim says ["hello world"]; and a final
    result with two alternatives contributes both of them, where the
    claim says the best one. *)
Theorem final_transcript_is_not_space_joined :
  let events :=
    [ mkEvent [mkResult (Some true) [mkAlt "hel"]];
      mkEvent [mkResult (Some false) [mkAlt "hello"]];
      mkEvent [mkResult (Some false) [mkAlt "world"]] ] in
  let two_alternatives :=
    [ mkEvent [mkResult (Some false) [mkAlt "hello"; mkAlt "hollow"]] ] in
  (final_transcript events = Return "helloworld"
   /\ spec_transcript events = "hello world"
   /\ final_transcript events <> Return (spec_transcript events))
  /\ (final_transcript two_alternatives = Return "hello hollow"
      /\ spec_transcript two_alternatives = "hello"
      /\ final_transcript two_alternatives <> Return (spec_transcript two_alternatives)).
Proof. cbv. repeat split; discriminate. Qed.

(** With one alternative per result, a result contributes exactly its
    best alternative. *)
Lemma alternatives_text_single (flag : option bool) (a : Alternative) :
  alternatives_text (mkResult flag [a]) = best_alternative (mkResult flag [a]).
Proof. reflexivity. Qed.

End Handler.

(* ================================================================== *)
(** ** transcribe_audio_stream (main1.py) *)
(* ================================================================== *)

Section Streaming.

Import Main1.

Variable provider : StreamingProvider.
Variable audio_stream : list (list Byte.byte).

Lemma transcribe_audio_stream_run (tr : Trace) :
  exists tr',
    transcribe_audio_stream provider audio_stream tr =
      (match session_fault provider audio_stream with
       | Some e => Raise e
       | None => Return (accumulated (session_events provider audio_stream))
       end, tr')
    /\ count is_start_stream tr' = S (count is_start_stream tr).
Proof.
  unfold transcribe_audio_stream, try_except, call, session_fault, session_events.
  unfold bind, emit, lift.
  destruct (provider audio_stream) as [source | e].
  - destruct (handle_events_source source init_transcription
                (tr ++ [StartStreamTranscription "en-US" 8000 "pcm"]))
      as (tr' & E & C).
    rewrite E. specialize (C is_start_stream (fun _ _ _ => eq_refl)).
    rewrite count_snoc in C. cbn [is_start_stream] in C.
    destruct (first_fault source) as [e |].
    + unfold logger_error, emit, raise. eexists. split; [reflexivity |].
      rewrite count_snoc, C. cbn [is_start_stream]. lia.
    + exists tr'. split; [reflexivity | lia].
  - unfold logger_error, emit, raise. eexists. split; [reflexivity |].
    rewrite !count_snoc. cbn [is_start_stream]. lia.
Qed.

(** C5: whatever the provider does, [transcribe_audio_stream] either
    returns the complete transcript of all delivered events (the provider
    had no fault) or raises the provider's fault, in which case no text
    is returned; the recognition session is opened exactly once, so
    nothing is retried. *)
Theorem transcribe_audio_stream_all_or_nothing (tr : Trace) :
  let run := transcribe_audio_stream provider audio_stream tr in
  (match session_fault provider audio_stream with
   | Some e => fst run = Raise e
   | None => fst run = Return (accumulated (session_events provider audio_stream))
   end)
  /\ count is_start_stream (snd run) = S (count is_start_stream tr).
Proof.
  cbv zeta. destruct (transcribe_audio_stream_run tr) as (tr' & E & C).
  rewrite E. cbn [fst snd]. split; [| exact C].
  now destruct (session_fault provider audio_stream).
Qed.

End Streaming.

(** C9: when the provider's event source ends without a fault and
    without having delivered a result whose [is_partial] is [False] (in
    particular after zero events), the transcript returned is the empty
    string. *)
Theorem transcript_without_final_result_is_empty
    (provider : Main1.StreamingProvider) (audio_stream : list (list Byte.byte))
    (source : list Main1.StreamItem) (tr : Trace) :
  provider audio_stream = Return source ->
  Main1.first_fault source = None ->
  filter Main1.is_partial_is_False
         (flat_map Main1.results (Main1.delivered source)) = [] ->
  fst (Main1.transcribe_audio_stream provider audio_stream tr) = Return "".
Proof.
  intros Hp Hf Hn.
  destruct (transcribe_audio_stream_run provider audio_stream tr) as (tr' & E & _).
  rewrite E. cbn [fst]. unfold Main1.session_fault, Main1.session_events.
  rewrite Hp, Hf. unfold Main1.accumulated. now rewrite Hn.
Qed.

(** Zero events: the handler starts from [""] and nothing is added. *)
Lemma transcript_of_zero_events :
  Main1.final_transcript [] = Return ""
  /\ fst (Main1.transcribe_audio_stream (fun _ => Return []) [] []) = Return "".
Proof.
  split; [reflexivity |].
  apply (transcript_without_final_result_is_empty (fun _ => Return []) [] [] []);
    reflexivity.
Defined.

(* ================================================================== *)
(** ** Speech synthesis (main1.py and main_aws.py) *)
(* ================================================================== *)

Section Synthesis.

Variable polly_client : Main1.PollyClient.

(** C8: each invocation of the synthesizer calls the provider exactly
    once; it returns the complete audio buffer the provider read out,
    and a provider failure is raised to the caller as it is. *)
Theorem synthesize_calls_provider_once (text voice_id output_format : string)
    (tr : Trace) :
  let run1 := Main1.synthesize_speech polly_client text voice_id output_format tr in
  let run2 := MainAws.synthesize polly_client text tr in
  fst run1 = Main1.provider_answer polly_client text voice_id output_format
  /\ count is_polly_call (snd run1) = S (count is_polly_call tr)
  /\ fst run2 = Main1.provider_answer polly_client text "Joanna" "mp3"
  /\ count is_polly_call (snd run2) = S (count is_polly_call tr)
  /\ Main1.CustomSynthesizer_synthesize polly_client text tr
     = Main1.synthesize_speech polly_client text "Joanna" "mp3" tr.
Proof.
  cbv zeta.
  assert (last : Main1.CustomSynthesizer_synthesize polly_client text tr
                 = Main1.synthesize_speech polly_client text "Joanna" "mp3" tr)
    by reflexivity.
  revert last.
  unfold Main1.synthesize_speech, MainAws.synthesize, Main1.provider_answer,
    and_then, try_except, call, logger_debug, logger_error.
  unfold bind, emit, lift, ret, raise.
  destruct (polly_client text voice_id output_format) as [r1 | e1];
    [destruct (Main1.AudioStream_read r1) |];
  (destruct (polly_client text "Joanna" "mp3") as [r2 | e2];
    [destruct (Main1.AudioStream_read r2) |]);
  cbn [fst snd]; rewrite ?count_snoc; cbn [is_polly_call];
  intros last; repeat split; solve [lia | exact last].
Qed.

End Synthesis.

(* ================================================================== *)
(** ** transcribe_audio (main_aws.py): the polling loop *)
(* ================================================================== *)

Section Batch.

Import MainAws.

Lemma is_terminal_spec (s : string) :
  is_terminal s = true <-> s = "COMPLETED" \/ s = "FAILED".
Proof.
  unfold is_terminal. cbn [existsb]. rewrite !orb_true_iff, !String.eqb_eq.
  intuition discriminate.
Qed.

(** Rounds that see a non-terminal status only query and sleep. *)
Lemma poll_pending (job_name : string) (pending : list JobStatus)
    (later : list (Outcome JobStatus)) :
  Forall non_terminal pending ->
  forall tr,
    poll job_name (map Return pending ++ later) tr =
    poll job_name later (tr ++ polling_rounds job_name (length pending)).
Proof.
  induction 1 as [| s pending Hs _ IH]; intros tr.
  - simpl. now rewrite app_nil_r.
  - cbn [map app poll length polling_rounds].
    unfold call, bind, emit, lift. red in Hs. rewrite Hs.
    rewrite IH. f_equal. now rewrite <- !app_assoc.
Qed.

(** A terminal status ends the loop at once, without a sleep. *)
Lemma poll_terminal (job_name : string) (s : JobStatus)
    (later : list (Outcome JobStatus)) (tr : Trace) :
  is_terminal (TranscriptionJobStatus s) = true ->
  poll job_name (Return s :: later) tr =
    (Return (Some s), tr ++ [GetTranscriptionJob job_name]).
Proof.
  intros T. cbn [poll]. unfold call, bind, emit, lift. now rewrite T.
Qed.

(** The loop hands back a status only if that status is terminal and
    every status seen before it was not. *)
Lemma poll_returns (job_name : string) (responses : list (Outcome JobStatus)) :
  forall tr s tr',
    poll job_name responses tr = (Return (Some s), tr') ->
    exists pending later,
      responses = map Return pending ++ Return s :: later
      /\ Forall non_terminal pending
      /\ is_terminal (TranscriptionJobStatus s) = true
      /\ tr' = tr ++ polling_rounds job_name (length pending)
                  ++ [GetTranscriptionJob job_name].
Proof.
  induction responses as [| [s0 | e] responses IH]; intros tr s tr' H.
  - discriminate.
  - cbn [poll] in H. unfold call, bind, emit, lift in H.
    destruct (is_terminal (TranscriptionJobStatus s0)) eqn:T.
    + unfold ret in H. inversion H; subst.
      exists [], responses. repeat split; auto.
    + apply IH in H. destruct H as (pending & later & -> & F & T' & ->).
      exists (s0 :: pending), later. repeat split; auto.
      cbn [length polling_rounds]. now rewrite <- !app_assoc.
  - cbn [poll] in H. unfold call, bind, emit, lift in H. discriminate.
Qed.

(** The loop only adds to the trace. *)
Lemma poll_extends (job_name : string) (responses : list (Outcome JobStatus)) :
  forall tr, exists ext, snd (poll job_name responses tr) = tr ++ ext.
Proof.
  induction responses as [| [s0 | e] responses IH]; intros tr.
  - exists []. simpl. now rewrite app_nil_r.
  - cbn [poll]. unfold call, bind, emit, lift.
    destruct (is_terminal (TranscriptionJobStatus s0)).
    + eexists. reflexivity.
    + destruct (IH ((tr ++ [GetTranscriptionJob job_name]) ++ [Sleep 5]))
        as (ext & E).
      rewrite E. eexists. rewrite <- !app_assoc. reflexivity.
  - cbn [poll]. unfold call, bind, emit, lift. eexists. reflexivity.
Qed.

Variable w : BatchWorld.
Variable audio_file_url : string.

Let job_name : string := job_name_at (time_time w).

(** [transcribe_audio], case by case. *)
Lemma transcribe_audio_cases (tr : Trace) :
  let tr0 := tr ++ [StartTranscriptionJob job_name audio_file_url "mp3" "en-US"] in
  let fail (e : PyException) (t : Trace) : Outcome (option Json) * Trace :=
    (Raise e,
     t ++ [Log ERROR "Error transcribing audio with AWS Transcribe: " (ArgExc e)]) in
  transcribe_audio w audio_file_url tr =
    match start_transcription_job w job_name audio_file_url with
    | Raise e => fail e tr0
    | Return _ =>
        match poll job_name (get_transcription_job w) tr0 with
        | (Raise e, t) => fail e t
        | (Return None, t) => (Return None, t)
        | (Return (Some status), t) =>
            if String.eqb (TranscriptionJobStatus status) "COMPLETED" then
              match TranscriptFileUri status with
              | None => fail (mkExc "KeyError" "Transcript") t
              | Some url =>
                  match and_then (requests_get w url)
                          (fun response => and_then (json response) transcript_field)
                  with
                  | Return transcript => (Return (Some transcript), t ++ [HttpGet url])
                  | Raise e => fail e (t ++ [HttpGet url])
                  end
              end
            else fail (mkExc "Exception" "Transcription job failed.") t
        end
    end.
Proof.
  cbv zeta. unfold transcribe_audio, try_except, fetch_transcript, call.
  unfold bind, emit, lift, logger_error, raise, ret, and_then.
  fold job_name.
  destruct (start_transcription_job w job_name audio_file_url); [| reflexivity].
  destruct (poll job_name (get_transcription_job w) _) as [[[status |] | e] t];
    try reflexivity.
  destruct (String.eqb (TranscriptionJobStatus status) "COMPLETED");
    [| reflexivity].
  destruct (TranscriptFileUri status) as [url |]; [| reflexivity].
  destruct (requests_get w url) as [response | e]; [| reflexivity].
  destruct (json response) as [body | e]; [| reflexivity].
  destruct (transcript_field body); reflexivity.
Qed.

(** The first call of an invocation submits the job under the name
    derived from the clock. *)
Lemma transcribe_audio_submits (tr : Trace) :
  exists ext,
    snd (transcribe_audio w audio_file_url tr) =
    tr ++ StartTranscriptionJob job_name audio_file_url "mp3" "en-US" :: ext.
Proof.
  rewrite transcribe_audio_cases. cbv zeta.
  destruct (start_transcription_job w job_name audio_file_url).
  - destruct (poll_extends job_name (get_transcription_job w)
                (tr ++ [StartTranscriptionJob job_name audio_file_url "mp3" "en-US"]))
      as (ext & E).
    destruct (poll job_name (get_transcription_job w) _) as [[[status |] | e] t];
      cbn [snd] in E; subst t.
    + destruct (String.eqb (TranscriptionJobStatus status) "COMPLETED").
      * destruct (TranscriptFileUri status) as [url |].
        -- destruct (and_then _ _); cbn [snd]; eexists;
             rewrite <- !app_assoc; reflexivity.
        -- cbn [snd]. eexists. rewrite <- !app_assoc. reflexivity.
      * cbn [snd]. eexists. rewrite <- !app_assoc. reflexivity.
    + cbn [snd]. eexists. rewrite <- !app_assoc. reflexivity.
    + cbn [snd]. eexists. rewrite <- !app_assoc. reflexivity.
  - cbn [snd]. eexists. rewrite <- !app_assoc. reflexivity.
Qed.

End Batch.

Section BatchClaims.

Import MainAws.

Lemma count_polling_rounds_http (job_name : string) (n : nat) :
  count is_http_get (polling_rounds job_name n) = 0%nat.
Proof. induction n as [| n IH]; [reflexivity | exact IH]. Qed.

(** C2: [transcribe_audio] returns a transcript only when the last
    status it polled is COMPLETED, every status polled before being
    non-terminal; when the first terminal status polled is FAILED it
    raises "Transcription job failed." and fetches nothing; and as long
    as every polled status is SUBMITTED or IN_PROGRESS it returns no
    transcript. *)
Theorem transcribe_audio_returns_only_when_completed
    (w : BatchWorld) (audio_file_url : string) (tr : Trace) :
  (forall transcript tr',
      transcribe_audio w audio_file_url tr = (Return (Some transcript), tr') ->
      exists pending done later,
        get_transcription_job w = map Return pending ++ Return done :: later
        /\ Forall non_terminal pending
        /\ TranscriptionJobStatus done = "COMPLETED")
  /\ (forall pending failed later,
         start_transcription_job w (job_name_at (time_time w)) audio_file_url
           = Return tt ->
         get_transcription_job w = map Return pending ++ Return failed :: later ->
         Forall non_terminal pending ->
         TranscriptionJobStatus failed = "FAILED" ->
         fst (transcribe_audio w audio_file_url tr)
           = Raise (mkExc "Exception" "Transcription job failed.")
         /\ count is_http_get (snd (transcribe_audio w audio_file_url tr))
            = count is_http_get tr)
  /\ (Forall (fun response =>
                exists s, response = Return s
                          /\ (TranscriptionJobStatus s = "SUBMITTED"
                              \/ TranscriptionJobStatus s = "IN_PROGRESS"))
             (get_transcription_job w) ->
      forall transcript,
        fst (transcribe_audio w audio_file_url tr) <> Return (Some transcript)).
Proof.
  assert (only_completed :
    forall transcript tr',
      transcribe_audio w audio_file_url tr = (Return (Some transcript), tr') ->
      exists pending done later,
        get_transcription_job w = map Return pending ++ Return done :: later
        /\ Forall non_terminal pending
        /\ TranscriptionJobStatus done = "COMPLETED").
  { intros transcript tr'. rewrite transcribe_audio_cases. cbv zeta.
    destruct (start_transcription_job w _ audio_file_url); [| discriminate].
    destruct (poll _ (get_transcription_job w) _) as [[[status |] | e] t] eqn:P;
      try discriminate.
    destruct (String.eqb (TranscriptionJobStatus status) "COMPLETED") eqn:C;
      [| discriminate].
    intros _. apply poll_returns in P.
    destruct P as (pending & later & E & F & _ & _).
    exists pending, status, later. apply String.eqb_eq in C. auto. }
  split; [exact only_completed | split].
  - intros pending failed later Hstart Hpolls Hpending Hfailed.
    rewrite transcribe_audio_cases. cbv zeta.
    rewrite Hstart, Hpolls, poll_pending by assumption.
    rewrite poll_terminal by (rewrite Hfailed; reflexivity).
    rewrite Hfailed. change ("FAILED" =? "COMPLETED")%string with false.
    cbn [fst snd]. split; [reflexivity |].
    rewrite !count_app, count_polling_rounds_http.
    unfold count. cbn [filter is_http_get length]. lia.
  - intros Hall transcript Hrun.
    destruct (only_completed transcript (snd (transcribe_audio w audio_file_url tr)))
      as (pending & done & later & E & _ & C).
    { rewrite <- Hrun. now destruct (transcribe_audio w audio_file_url tr). }
    rewrite E in Hall. apply Forall_app in Hall. destruct Hall as [_ Hall].
    inversion Hall as [| ? ? (s & Hs & Hstatus) _]; subst.
    inversion Hs; subst s.
    rewrite C in Hstatus. destruct Hstatus; discriminate.
Qed.

(** A job seen in progress and then FAILED: the call raises and returns
    nothing; a job never seen beyond IN_PROGRESS: no transcript. *)
Lemma transcribe_audio_failed_job_raises :
  fst (transcribe_audio Scenario.failing "s3://calls/a.mp3" [])
    = Raise (mkExc "Exception" "Transcription job failed.")
  /\ count is_http_get (snd (transcribe_audio Scenario.failing "s3://calls/a.mp3" []))
     = 0%nat.
Proof.
  apply (proj1 (proj2 (transcribe_audio_returns_only_when_completed
                         Scenario.failing "s3://calls/a.mp3" []))
           [Scenario.in_progress] Scenario.failed []).
  - reflexivity.
  - reflexivity.
  - repeat constructor.
  - reflexivity.
Defined.

(** The run that sees the job non-terminal [n] times and then
    COMPLETED, with the result document fetched and parsed: what the
    lookup in the parsed body gives is returned, what it raises is
    raised after being logged. *)
Lemma transcribe_audio_completed_run
    (w : BatchWorld) (audio_file_url : string) (tr : Trace)
    (pending : list JobStatus) (done : JobStatus)
    (later : list (Outcome JobStatus))
    (file_uri : string) (response : HttpResponse) (body : Json) :
  start_transcription_job w (job_name_at (time_time w)) audio_file_url
    = Return tt ->
  get_transcription_job w = map Return pending ++ Return done :: later ->
  Forall non_terminal pending ->
  TranscriptionJobStatus done = "COMPLETED" ->
  TranscriptFileUri done = Some file_uri ->
  requests_get w file_uri = Return response ->
  json response = Return body ->
  let name := job_name_at (time_time w) in
  let calls :=
    tr ++ StartTranscriptionJob name audio_file_url "mp3" "en-US"
       :: polling_rounds name (length pending)
       ++ [GetTranscriptionJob name; HttpGet file_uri] in
  transcribe_audio w audio_file_url tr =
    match transcript_field body with
    | Return transcript => (Return (Some transcript), calls)
    | Raise e =>
        (Raise e,
         calls ++ [Log ERROR "Error transcribing audio with AWS Transcribe: "
                       (ArgExc e)])
    end
  /\ count is_http_get calls = S (count is_http_get tr).
Proof.
  intros Hstart Hpolls Hpending Hdone Huri Hget Hjson. cbv zeta. split.
  - rewrite transcribe_audio_cases. cbv zeta.
    rewrite Hstart, Hpolls, poll_pending by assumption.
    rewrite poll_terminal by (rewrite Hdone; reflexivity).
    rewrite Hdone. change ("COMPLETED" =? "COMPLETED")%string with true.
    cbv iota. rewrite Huri, Hget. cbn [and_then]. rewrite Hjson.
    cbn [and_then].
    destruct (transcript_field body); repeat (f_equal; try (now rewrite <- !app_assoc)).
  - rewrite count_app. unfold count at 2. cbn [filter is_http_get].
    fold (count is_http_get
            (polling_rounds (job_name_at (time_time w)) (length pending)
               ++ [GetTranscriptionJob (job_name_at (time_time w)); HttpGet file_uri])).
    rewrite count_app, count_polling_rounds_http. cbn. lia.
Qed.

(** The value under the first occurrence of a key. *)
Lemma dict_get_first (key : string) (v : Json)
    (before after : list (string * Json)) :
  ~ In key (map fst before) ->
  dict_get (before ++ (key, v) :: after) key = Some v.
Proof.
  induction before as [| [k x] before IH]; cbn [map fst app dict_get In].
  - intros _. now rewrite String.eqb_refl.
  - intros H. destruct (String.eqb_spec k key) as [-> | _].
    + exfalso. apply H. now left.
    + apply IH. intros I. apply H. now right.
Qed.

(** C4: when the job is seen non-terminal [n] times and then COMPLETED,
    the calls made are: the submission, [n] rounds of a status query
    followed by a sleep of 5, one last status query, and exactly one GET
    of the result document; and when the parsed body of that document is
    an object whose "results" is an object whose "transcripts" is a list
    whose first element is an object with a "transcript" field, the
    value returned is the value of that field, whatever else the
    document holds. *)
Theorem transcribe_audio_polls_every_5_and_fetches_once
    (w : BatchWorld) (audio_file_url : string) (tr : Trace)
    (pending : list JobStatus) (done : JobStatus)
    (later : list (Outcome JobStatus))
    (file_uri : string) (response : HttpResponse)
    (body_before body_after : list (string * Json))
    (results_before results_after : list (string * Json))
    (first_before first_after : list (string * Json))
    (other_transcripts : list Json) (transcript : Json) :
  start_transcription_job w (job_name_at (time_time w)) audio_file_url
    = Return tt ->
  get_transcription_job w = map Return pending ++ Return done :: later ->
  Forall non_terminal pending ->
  TranscriptionJobStatus done = "COMPLETED" ->
  TranscriptFileUri done = Some file_uri ->
  requests_get w file_uri = Return response ->
  ~ In "results" (map fst body_before) ->
  ~ In "transcripts" (map fst results_before) ->
  ~ In "transcript" (map fst first_before) ->
  json response =
    Return
      (JObj (body_before
             ++ ("results",
                 JObj (results_before
                       ++ ("transcripts",
                           JArr (JObj (first_before
                                       ++ ("transcript", transcript)
                                       :: first_after)
                                 :: other_transcripts))
                       :: results_after))
             :: body_after)) ->
  let name := job_name_at (time_time w) in
  let calls :=
    tr ++ StartTranscriptionJob name audio_file_url "mp3" "en-US"
       :: polling_rounds name (length pending)
       ++ [GetTranscriptionJob name; HttpGet file_uri] in
  transcribe_audio w audio_file_url tr = (Return (Some transcript), calls)
  /\ count is_http_get calls = S (count is_http_get tr).
Proof.
  intros Hstart Hpolls Hpending Hdone Huri Hget Nb Nr Nf Hjson.
  pose proof (transcribe_audio_completed_run w audio_file_url tr pending done
                later file_uri response _ Hstart Hpolls Hpending Hdone Huri
                Hget Hjson) as [Hrun Hcount].
  cbv zeta in Hrun, Hcount. cbv zeta. split; [| exact Hcount].
  rewrite Hrun. unfold transcript_field, and_then.
  unfold getitem_key at 1. rewrite (dict_get_first _ _ _ _ Nb).
  unfold getitem_key at 1. rewrite (dict_get_first _ _ _ _ Nr).
  cbn [getitem_0]. unfold getitem_key.
  now rewrite (dict_get_first _ _ _ _ Nf).
Qed.

(** Two rounds in progress, then COMPLETED: queries 5 apart, one fetch,
    and the transcript of the document. *)
Lemma transcribe_audio_completing_run :
  transcribe_audio Scenario.completing "s3://calls/a.mp3" [] =
    (Return (Some (JStr "hello world")),
     [ StartTranscriptionJob "transcription_job_1700000000" "s3://calls/a.mp3"
                             "mp3" "en-US";
       GetTranscriptionJob "transcription_job_1700000000"; Sleep 5;
       GetTranscriptionJob "transcription_job_1700000000"; Sleep 5;
       GetTranscriptionJob "transcription_job_1700000000";
       HttpGet "https://s3.example/transcript.json" ]).
Proof.
  refine (proj1 (transcribe_audio_polls_every_5_and_fetches_once
                  Scenario.completing "s3://calls/a.mp3" []
                  [Scenario.in_progress; Scenario.in_progress] Scenario.completed []
                  "https://s3.example/transcript.json"
                  (mkHttpResponse (Return Scenario.document))
                  [("jobName", JStr "transcription_job_1700000000")]
                  [("status", JStr "COMPLETED")]
                  [] [("items", JArr [])]
                  [] []
                  [] (JStr "hello world")
                  _ _ _ _ _ _ _ _ _ _)); try reflexivity.
  - repeat constructor.
  - cbn. intros [H | []]. discriminate H.
  - cbn. intros [].
  - cbn. intros [].
Defined.

(** An invocation submits its job under the name "transcription_job_"
    followed by [int(time.time())], the clock reading truncated towards
    zero; two invocations submit the same name exactly when their
    readings truncate to the same integer. *)
Lemma job_names_equal_iff_same_second
    (w1 w2 : BatchWorld) (url1 url2 : string) :
  submitted_job_name (snd (transcribe_audio w1 url1 []))
    = Some (job_name_at (time_time w1))
  /\ (submitted_job_name (snd (transcribe_audio w1 url1 []))
        = submitted_job_name (snd (transcribe_audio w2 url2 []))
      <-> int_of_float (time_time w1) = int_of_float (time_time w2)).
Proof.
  destruct (transcribe_audio_submits w1 url1 []) as (ext1 & E1).
  destruct (transcribe_audio_submits w2 url2 []) as (ext2 & E2).
  rewrite E1, E2. cbn [app submitted_job_name]. split; [reflexivity |].
  unfold job_name_at. split.
  - intros H. apply str_of_int_inj.
    apply (append_inj_l "transcription_job_"). congruence.
  - now intros ->.
Qed.

(** C3: the code breaks the claim.  The name is made unique by
    [int(time.time())] only, so two invocations at distinct instants of
    the same second (1700000000.25 and 1700000000.75), the job of each
    still in progress, submit the same job name. *)
Theorem same_second_invocations_share_a_job_name :
  (time_time Scenario.first_call < time_time Scenario.second_call)%Q
  /\ fst (transcribe_audio Scenario.first_call "s3://calls/a.mp3" []) = Return None
  /\ fst (transcribe_audio Scenario.second_call "s3://calls/b.mp3" []) = Return None
  /\ submitted_job_name (snd (transcribe_audio Scenario.first_call "s3://calls/a.mp3" []))
     = Some "transcription_job_1700000000"
  /\ submitted_job_name (snd (transcribe_audio Scenario.second_call "s3://calls/b.mp3" []))
     = Some "transcription_job_1700000000".
Proof. repeat split. Qed.

End BatchClaims.

(* ================================================================== *)
(** ** Call orchestration and the HTTP endpoints (main.py, main_aws.py) *)
(* ================================================================== *)

Section Orchestration.

Variable cfg : MainAws.Settings.
Variable tel : MainAws.Telephony.

Ltac run_orchestrator :=
  unfold Main.api_start_outbound_call, MainAws.api_start_outbound_call,
    Main.start_outbound_call, MainAws.start_outbound_call,
    try_except, call, logger_debug, logger_error;
  unfold bind, emit, lift, ret.

(** C6: whatever the destination and whatever the telephony
    collaborator does (constructing the call or starting it may raise),
    [start_outbound_call] returns [None] and raises nothing, and the
    endpoint answers [{"status": "success"}]. *)
Theorem start_outbound_call_never_raises (to_phone : option string) (tr : Trace) :
  fst (Main.start_outbound_call cfg tel to_phone tr) = Return tt
  /\ fst (Main.api_start_outbound_call cfg tel to_phone tr)
     = Return [("status", "success")]
  /\ fst (MainAws.start_outbound_call cfg tel to_phone tr) = Return tt
  /\ fst (MainAws.api_start_outbound_call cfg tel to_phone tr)
     = Return [("status", "success")].
Proof.
  run_orchestrator.
  destruct to_phone as [[| c number] |]; cbn [truthy]; repeat split;
    match goal with
    | |- context [MainAws.OutboundCall_init tel ?a] =>
        destruct (MainAws.OutboundCall_init tel a) as [[] |];
        [destruct (MainAws.OutboundCall_start tel a) as [[] |] |];
        reflexivity
    end.
Qed.

(** C7: with [None] or [""] as destination nothing happens at all: the
    trace is left as it was (no [OutboundCall] is constructed or started,
    nothing is logged) and nothing is raised. *)
Theorem start_outbound_call_without_number_is_noop (tr : Trace) :
  Main.start_outbound_call cfg tel None tr = (Return tt, tr)
  /\ Main.start_outbound_call cfg tel (Some "") tr = (Return tt, tr)
  /\ MainAws.start_outbound_call cfg tel None tr = (Return tt, tr)
  /\ MainAws.start_outbound_call cfg tel (Some "") tr = (Return tt, tr).
Proof. repeat split. Qed.

(** With a number, the call is constructed before anything else. *)
Lemma start_outbound_call_with_number_constructs (c : ascii) (number : string)
    (tr : Trace) :
  exists ext,
    snd (Main.start_outbound_call cfg tel (Some (String c number)) tr) =
      tr ++ OutboundCallInit
              (mkCallArgs (MainAws.BASE_URL cfg) (String c number)
                          (MainAws.TWILIO_PHONE cfg) ElevenLabsConfig) :: ext.
Proof.
  run_orchestrator. cbn [truthy].
  destruct (MainAws.OutboundCall_init tel _) as [[] |];
    [destruct (MainAws.OutboundCall_start tel _) as [[] |] |];
    cbn [snd]; eexists; rewrite <- !app_assoc; reflexivity.
Qed.

End Orchestration.

(** A collaborator whose [start()] raises: the failure is logged and
    the endpoint still answers success. *)
Example start_outbound_call_faulty_telephony :
  Main.api_start_outbound_call Scenario.settings Scenario.faulty_telephony
    (Some "+15551234567") [] =
  (Return [("status", "success")],
   let args := mkCallArgs "example.ngrok.io" "+15551234567" "+15550000000"
                          ElevenLabsConfig in
   [ OutboundCallInit args; OutboundCallStart args;
     Log ERROR "Error starting outbound call: "
         (ArgExc (mkExc "TwilioRestException" "Unable to create record")) ]).
Proof. reflexivity. Qed.

(** The function [inbound_call], whenever it is invoked, returns a
    response and raises nothing: [{"status": "call received"}] when
    [request.json()] returned the parsed body, [{"status": "error"}]
    when it raised. *)
Lemma inbound_call_always_responds (request : MainAws.Request) (tr : Trace) :
  let expected :=
    match MainAws.request_json request with
    | Return _ => [("status", "call received")]
    | Raise _ => [("status", "error")]
    end in
  fst (Main.inbound_call request tr) = Return expected
  /\ fst (MainAws.inbound_call request tr) = Return expected.
Proof.
  cbv zeta. unfold Main.inbound_call, MainAws.inbound_call, try_except, call,
    logger_debug, logger_error.
  unfold bind, emit, lift, ret.
  destruct (MainAws.request_json request); split; reflexivity.
Qed.

Section Shadowing.

Import Routing.

Lemma find_app_first {A} (f : A -> bool) (l l' : list A) :
  find f (l ++ l') = match find f l with
                     | Some x => Some x
                     | None => find f l'
                     end.
Proof.
  induction l as [| a l IH]; [reflexivity |].
  cbn [app find]. now destruct (f a).
Qed.

Lemma find_library_route (f : Route -> bool)
    (rs : list (Method * string * string)) (r : Route) :
  find f (map library_route rs) = Some r ->
  is_library (route_endpoint r) = true.
Proof.
  induction rs as [| [[m p] name] rs IH]; [discriminate |].
  cbn [map find]. destruct (f (library_route (m, p, name))).
  - intros H. inversion H. reflexivity.
  - exact IH.
Qed.

Lemma library_never_reaches (e : Endpoint) :
  is_library e = true -> reaches_inbound_call (Some e) = false.
Proof. now destruct e. Qed.

Variables before after : list (Method * string * string).

(** The routes both scripts register, in their order. *)
Let routes : list Route :=
  get_router ["/inbound_call"] before after
  ++ [ mkRoute GET "/" App_root;
       mkRoute POST "/start_outbound_call" App_api_start_outbound_call;
       mkRoute POST "/inbound_call" App_inbound_call ].

Lemma post_inbound_call_served_by_library :
  exists served,
    dispatch POST "/inbound_call" routes = Some served
    /\ is_library served = true.
Proof.
  unfold routes, dispatch, get_router. rewrite <- !app_assoc.
  rewrite find_app_first.
  destruct (find _ (map library_route before)) as [r |] eqn:B.
  - exists (route_endpoint r). split; [reflexivity |].
    now apply find_library_route in B.
  - cbn. eexists. split; reflexivity.
Qed.

Lemma inbound_call_unreachable (m : Method) (path : string) :
  reaches_inbound_call (dispatch m path routes) = false.
Proof.
  unfold routes, dispatch, get_router. rewrite <- !app_assoc.
  rewrite find_app_first.
  destruct (find _ (map library_route before)) as [r |] eqn:B.
  { apply library_never_reaches. now apply find_library_route in B. }
  cbn [map app find].
  destruct (matches m path (mkRoute POST "/inbound_call"
                              (TelephonyInbound "/inbound_call"))) eqn:T;
    [reflexivity |].
  rewrite find_app_first.
  destruct (find _ (map library_route after)) as [r |] eqn:A.
  { apply library_never_reaches. now apply find_library_route in A. }
  cbn [find].
  destruct (matches m path (mkRoute GET "/" App_root)); [reflexivity |].
  destruct (matches m path (mkRoute POST "/start_outbound_call"
                              App_api_start_outbound_call)); [reflexivity |].
  change (matches m path (mkRoute POST "/inbound_call" App_inbound_call))
    with (matches m path (mkRoute POST "/inbound_call"
                            (TelephonyInbound "/inbound_call"))).
  now rewrite T.
Qed.

End Shadowing.

(** C10: the code breaks the claim.  In [main.py] and in [main_aws.py]
    the telephony router, which answers POST at "/inbound_call", is
    included before [inbound_call] is registered for the same method and
    path; so, whatever other routes the library has, POST /inbound_call
    is served by a function of the library, and no request at all is
    served by [inbound_call]: the responses the claim names are never
    produced by the endpoint. *)
Theorem inbound_call_handler_is_shadowed
    (before after : list (Routing.Method * string * string))
    (m : Routing.Method) (path : string) :
  (exists served,
      Routing.dispatch Routing.POST "/inbound_call"
        (Routing.main_routes before after) = Some served
      /\ Routing.is_library served = true)
  /\ Routing.reaches_inbound_call
       (Routing.dispatch m path (Routing.main_routes before after)) = false
  /\ (exists served,
         Routing.dispatch Routing.POST "/inbound_call"
           (Routing.main_aws_routes before after) = Some served
         /\ Routing.is_library served = true)
  /\ Routing.reaches_inbound_call
       (Routing.dispatch m path (Routing.main_aws_routes before after)) = false.
Proof.
  repeat split.
  - apply post_inbound_call_served_by_library.
  - apply inbound_call_unreachable.
  - apply post_inbound_call_served_by_library.
  - apply inbound_call_unreachable.
Qed.

(** With no other library route, POST /inbound_call goes to the
    library's inbound-call function. *)
Example post_inbound_call_dispatch :
  Routing.dispatch Routing.POST "/inbound_call" (Routing.main_routes [] [])
  = Some (Routing.TelephonyInbound "/inbound_call")
  /\ Routing.dispatch Routing.POST "/start_outbound_call" (Routing.main_routes [] [])
     = Some Routing.App_api_start_outbound_call.
Proof. split; reflexivity. Qed.

(* ================================================================== *)
(** ** Further properties: the transcript handler and its log *)
(* ================================================================== *)

Section HandlerLog.

Import Main1 Obs.

Lemma last_cons_default {A} (a d : A) (l : list A) : last (a :: l) d = last l a.
Proof.
  revert a d. induction l as [| b l IH]; intros a d; [reflexivity |].
  change (last (a :: b :: l) d) with (last (b :: l) d).
  now rewrite !IH.
Qed.

Lemma last_app_default {A} (l l' : list A) (d : A) :
  last (l ++ l') d = last l' (last l d).
Proof.
  revert d. induction l as [| a l IH]; intros d; [reflexivity |].
  change ((a :: l) ++ l') with (a :: (l ++ l')).
  now rewrite !last_cons_default, IH.
Qed.

Lemma accumulated_app (events events' : list TranscriptEvent) :
  accumulated (events ++ events')
  = (accumulated events ++ accumulated events')%string.
Proof.
  unfold accumulated.
  now rewrite flat_map_app, filter_app, map_app, join_empty_app.
Qed.

Lemma final_transcript_accumulated (events : list TranscriptEvent) :
  final_transcript events = Return (accumulated events).
Proof.
  unfold final_transcript.
  destruct (handle_events_source (map Item events) init_transcription [])
    as (tr' & E & _).
  now rewrite E, first_fault_items, delivered_items.
Qed.

(** X1: the handler is a homomorphism for concatenation: the transcript
    of one sequence of events followed by another is the transcript of
    the first followed by the transcript of the second. *)
Theorem final_transcript_of_concatenation (events events' : list TranscriptEvent) :
  exists first second,
    final_transcript events = Return first
    /\ final_transcript events' = Return second
    /\ final_transcript (events ++ events') = Return (first ++ second)%string.
Proof.
  exists (accumulated events), (accumulated events').
  rewrite !final_transcript_accumulated, accumulated_app. auto.
Qed.

Lemma running_app (rs rs' : list Result) :
  forall t,
    running t (rs ++ rs') = running t rs ++ running (last (running t rs) t) rs'.
Proof.
  induction rs as [| r rs IH]; intros t; [reflexivity |].
  cbn [app running]. destruct (is_partial_is_False r); cbv zeta.
  - rewrite IH, last_cons_default. reflexivity.
  - apply IH.
Qed.

Lemma for_each_handle_result_trace (rs : list Result) :
  forall t tr,
    for_each handle_result rs t tr
    = (Return (last (running t rs) t), tr ++ map so_far (running t rs)).
Proof.
  induction rs as [| r rs IH]; intros t tr.
  - cbn. unfold ret. now rewrite app_nil_r.
  - cbn [for_each running]. unfold bind at 1, handle_result.
    destruct (is_partial_is_False r); cbv zeta.
    + unfold bind, logger_debug, emit, ret. rewrite IH.
      rewrite last_cons_default. cbn [map]. unfold alternatives_text, so_far.
      now rewrite <- app_assoc.
    + unfold ret. apply IH.
Qed.

(** The run of the handler over any event source: its outcome, and the
    records it logs. *)
Lemma handle_events_trace (source : list StreamItem) :
  forall t tr,
    let rs := flat_map results (delivered source) in
    handle_events t source tr
    = (match first_fault source with
       | Some e => Raise e
       | None => Return (last (running t rs) t)
       end, tr ++ map so_far (running t rs)).
Proof.
  induction source as [| [ev | e] source IH]; intros t tr; cbv zeta.
  - cbn. unfold ret. now rewrite app_nil_r.
  - cbn [handle_events first_fault delivered flat_map].
    unfold bind at 1, handle_transcript_event.
    rewrite for_each_handle_result_trace, IH. cbv zeta.
    rewrite running_app, map_app, app_assoc, last_app_default. reflexivity.
  - cbn. unfold raise. now rewrite app_nil_r.
Qed.

Lemma length_running (rs : list Result) :
  forall t, length (running t rs) = length (filter is_partial_is_False rs).
Proof.
  induction rs as [| r rs IH]; intros t; [reflexivity |].
  cbn [running filter]. destruct (is_partial_is_False r); cbn [length]; auto.
Qed.

(** X2: handling a fault-free sequence of events, from any starting
    transcription, writes exactly one DEBUG record per result whose
    [is_partial] is [False], in arrival order, each carrying the
    transcription reached after that result; the transcription returned
    is the one of the last record, or the starting one when no result
    was final. *)
Theorem handle_events_logs_each_final_result
    (events : list TranscriptEvent) (t : string) (tr : Trace) :
  let rs := flat_map results events in
  handle_events t (map Item events) tr
  = (Return (last (running t rs) t), tr ++ map so_far (running t rs))
  /\ length (running t rs) = length (filter is_partial_is_False rs).
Proof.
  cbv zeta. split; [| apply length_running].
  pose proof (handle_events_trace (map Item events) t tr) as H.
  cbv zeta in H. now rewrite first_fault_items, delivered_items in H.
Qed.

(** X3: the complete trace of [transcribe_audio_stream]: the session is
    opened, every final result delivered before the end (or before the
    provider's fault) is logged at DEBUG with the transcription so far,
    and a fault is logged once, at ERROR, as the last record before it
    is raised again; without a fault no ERROR record is written. *)
Theorem transcribe_audio_stream_trace
    (provider : StreamingProvider) (audio_stream : list (list Byte.byte))
    (tr : Trace) :
  let rs := flat_map results (session_events provider audio_stream) in
  snd (transcribe_audio_stream provider audio_stream tr)
  = tr ++ StartStreamTranscription "en-US" 8000 "pcm"
       :: map so_far (running "" rs)
       ++ match session_fault provider audio_stream with
          | Some e => [Log ERROR "Error in Transcribe streaming: " (ArgExc e)]
          | None => []
          end.
Proof.
  cbv zeta.
  unfold transcribe_audio_stream, try_except, call, session_fault, session_events.
  unfold bind, emit, lift.
  destruct (provider audio_stream) as [source | e].
  - pose proof (handle_events_trace source init_transcription
                  (tr ++ [StartStreamTranscription "en-US" 8000 "pcm"])) as H.
    cbv zeta in H. rewrite H. unfold init_transcription.
    destruct (first_fault source) as [e |].
    + unfold logger_error, emit, raise. cbn [snd fst].
      now rewrite <- !app_assoc.
    + cbn [snd]. now rewrite <- !app_assoc, app_nil_r.
  - unfold logger_error, emit, raise. cbn [snd flat_map running map].
    now rewrite <- !app_assoc.
Qed.

End HandlerLog.

(* ================================================================== *)
(** ** Further properties: the batch transcriber *)
(* ================================================================== *)

Section BatchFurther.

Import MainAws Obs.

(** The loop only queries and sleeps. *)
Lemma poll_counts (p : Event -> bool) (job_name : string)
    (responses : list (Outcome JobStatus)) :
  (forall n, p (GetTranscriptionJob n) = false) ->
  (forall s, p (Sleep s) = false) ->
  forall tr, count p (snd (poll job_name responses tr)) = count p tr.
Proof.
  intros Hget Hsleep.
  induction responses as [| [s | e] responses IH]; intros tr.
  - reflexivity.
  - cbn [poll]. unfold call, bind, emit, lift.
    destruct (is_terminal (TranscriptionJobStatus s)).
    + unfold ret. cbn [snd]. rewrite count_snoc, Hget. lia.
    + rewrite IH, !count_snoc, Hget, Hsleep. lia.
  - cbn [poll]. unfold call, bind, emit, lift. cbn [snd].
    rewrite count_snoc, Hget. lia.
Qed.

Lemma poll_only_pending (job_name : string) (pending : list JobStatus) (tr : Trace) :
  Forall non_terminal pending ->
  poll job_name (map Return pending) tr
  = (Return None, tr ++ polling_rounds job_name (length pending)).
Proof.
  intros F. rewrite <- (app_nil_r (map Return pending)).
  now rewrite poll_pending.
Qed.

Lemma poll_raises (job_name : string) (e : PyException)
    (later : list (Outcome JobStatus)) (tr : Trace) :
  poll job_name (Raise e :: later) tr
  = (Raise e, tr ++ [GetTranscriptionJob job_name]).
Proof. reflexivity. Qed.

Variable w : BatchWorld.
Variable audio_file_url : string.

(** X4: [transcribe_audio] raises an exception only after having logged
    it: when it raises [e], the last record of its trace is the ERROR
    record of [e] and it is the only ERROR record added; when it does
    not raise, no ERROR record is added. *)
Theorem transcribe_audio_logs_what_it_raises (tr : Trace) :
  let run := transcribe_audio w audio_file_url tr in
  match fst run with
  | Raise e =>
      (exists tr', snd run = tr' ++ [batch_error e])
      /\ count is_error_log (snd run) = S (count is_error_log tr)
  | Return _ => count is_error_log (snd run) = count is_error_log tr
  end.
Proof.
  cbv zeta. rewrite transcribe_audio_cases. cbv zeta.
  destruct (start_transcription_job w _ audio_file_url).
  - pose proof (poll_counts is_error_log (job_name_at (time_time w))
                  (get_transcription_job w) (fun _ => eq_refl) (fun _ => eq_refl)
                  (tr ++ [StartTranscriptionJob (job_name_at (time_time w))
                            audio_file_url "mp3" "en-US"])) as C.
    rewrite count_snoc in C. cbn [is_error_log] in C.
    destruct (poll _ (get_transcription_job w) _) as [[[status |] | e] t];
      cbn [snd] in C.
    + destruct (String.eqb (TranscriptionJobStatus status) "COMPLETED").
      * destruct (TranscriptFileUri status) as [url |].
        -- destruct (and_then _ _); cbn [fst snd].
           ++ rewrite count_snoc. cbn [is_error_log]. lia.
           ++ split; [eexists; reflexivity |].
              rewrite !count_snoc. cbn [is_error_log]. lia.
        -- cbn [fst snd]. split; [eexists; reflexivity |].
           rewrite count_snoc. cbn [is_error_log]. lia.
      * cbn [fst snd]. split; [eexists; reflexivity |].
        rewrite count_snoc. cbn [is_error_log]. lia.
    + cbn [fst snd]. lia.
    + cbn [fst snd]. split; [eexists; reflexivity |].
      rewrite count_snoc. cbn [is_error_log]. lia.
  - cbn [fst snd]. split; [eexists; reflexivity |].
    rewrite !count_snoc. cbn [is_error_log]. lia.
Qed.

(** X5: in every run [transcribe_audio] issues at most one HTTP GET, and
    it issues one only when the status that ended the polling is
    COMPLETED and carries a transcript location. *)
Theorem transcribe_audio_fetches_at_most_once (tr : Trace) :
  let run := transcribe_audio w audio_file_url tr in
  (count is_http_get (snd run) <= S (count is_http_get tr))%nat
  /\ (count is_http_get (snd run) = S (count is_http_get tr) ->
      exists pending done later url,
        get_transcription_job w = map Return pending ++ Return done :: later
        /\ Forall non_terminal pending
        /\ TranscriptionJobStatus done = "COMPLETED"
        /\ TranscriptFileUri done = Some url).
Proof.
  cbv zeta. rewrite transcribe_audio_cases. cbv zeta.
  destruct (start_transcription_job w _ audio_file_url).
  - pose proof (poll_counts is_http_get (job_name_at (time_time w))
                  (get_transcription_job w) (fun _ => eq_refl) (fun _ => eq_refl)
                  (tr ++ [StartTranscriptionJob (job_name_at (time_time w))
                            audio_file_url "mp3" "en-US"])) as C.
    rewrite count_snoc in C. cbn [is_http_get] in C.
    destruct (poll _ (get_transcription_job w) _) as [[[status |] | e] t] eqn:P;
      cbn [snd] in C.
    + destruct (String.eqb (TranscriptionJobStatus status) "COMPLETED") eqn:S.
      * destruct (TranscriptFileUri status) as [url |] eqn:U.
        -- apply poll_returns in P. destruct P as (pending & later & E & F & _ & _).
           apply String.eqb_eq in S.
           assert (X : exists pending done later url,
                     get_transcription_job w
                     = map Return pending ++ Return done :: later
                     /\ Forall non_terminal pending
                     /\ TranscriptionJobStatus done = "COMPLETED"
                     /\ TranscriptFileUri done = Some url)
             by (exists pending, status, later, url; auto).
           destruct (and_then _ _); cbn [fst snd];
             rewrite ?count_snoc; cbn [is_http_get]; split; auto; lia.
        -- cbn [snd]. rewrite count_snoc. cbn [is_http_get]. split; lia.
      * cbn [snd]. rewrite count_snoc. cbn [is_http_get]. split; lia.
    + cbn [snd]. split; lia.
    + cbn [snd]. rewrite count_snoc. cbn [is_http_get]. split; lia.
  - cbn [snd]. rewrite !count_snoc. cbn [is_http_get]. split; lia.
Qed.

(** X6: the polling has no upper bound and knows two terminal statuses
    only: as long as the submission succeeded and every status polled is
    a string other than "COMPLETED" and "FAILED" (QUEUED, IN_PROGRESS, a
    lower-case "completed", ...), the function has not returned, and it
    has queried and slept 5 once per status. *)
Theorem transcribe_audio_keeps_polling (tr : Trace) (pending : list JobStatus) :
  start_transcription_job w (job_name_at (time_time w)) audio_file_url
    = Return tt ->
  get_transcription_job w = map Return pending ->
  Forall non_terminal pending ->
  transcribe_audio w audio_file_url tr
  = (Return None,
     tr ++ StartTranscriptionJob (job_name_at (time_time w)) audio_file_url
             "mp3" "en-US"
        :: polling_rounds (job_name_at (time_time w)) (length pending)).
Proof.
  intros Hstart Hpolls Hpending.
  rewrite transcribe_audio_cases. cbv zeta.
  rewrite Hstart, Hpolls, poll_only_pending by assumption.
  now rewrite <- app_assoc.
Qed.

(** X7: a failure of the submission, or of a status query, is raised at
    once: after a failed submission nothing is queried, and after a
    failed status query nothing more is queried, slept or fetched; the
    only thing done after the failing call is to log it. *)
Theorem transcribe_audio_stops_at_first_failure (tr : Trace) :
  let name := job_name_at (time_time w) in
  let submit := StartTranscriptionJob name audio_file_url "mp3" "en-US" in
  (forall e,
      start_transcription_job w name audio_file_url = Raise e ->
      transcribe_audio w audio_file_url tr
      = (Raise e, tr ++ [submit; batch_error e]))
  /\ (forall pending e later,
         start_transcription_job w name audio_file_url = Return tt ->
         get_transcription_job w = map Return pending ++ Raise e :: later ->
         Forall non_terminal pending ->
         transcribe_audio w audio_file_url tr
         = (Raise e,
            tr ++ submit :: polling_rounds name (length pending)
               ++ [GetTranscriptionJob name; batch_error e])).
Proof.
  cbv zeta. split.
  - intros e Hstart. rewrite transcribe_audio_cases. cbv zeta.
    rewrite Hstart. now rewrite <- app_assoc.
  - intros pending e later Hstart Hpolls Hpending.
    rewrite transcribe_audio_cases. cbv zeta.
    rewrite Hstart, Hpolls, poll_pending, poll_raises by assumption.
    unfold batch_error. now rewrite <- !app_assoc.
Qed.

End BatchFurther.

(** Three statuses that are not terminal for the code, among them the
    QUEUED of AWS and a lower-case "completed": still polling. *)
Lemma transcribe_audio_never_terminal_run :
  MainAws.transcribe_audio Cases.never_terminal "s3://calls/a.mp3" [] =
    (Return None,
     [ StartTranscriptionJob "transcription_job_1700000000" "s3://calls/a.mp3"
                             "mp3" "en-US";
       GetTranscriptionJob "transcription_job_1700000000"; Sleep 5;
       GetTranscriptionJob "transcription_job_1700000000"; Sleep 5;
       GetTranscriptionJob "transcription_job_1700000000"; Sleep 5 ]).
Proof.
  refine (transcribe_audio_keeps_polling Cases.never_terminal "s3://calls/a.mp3" []
            [Cases.queued; Scenario.in_progress; Cases.lower_case_completed]
            _ _ _); try reflexivity.
  repeat constructor.
Defined.

(** A status query that raises on the second round. *)
Lemma transcribe_audio_query_failure_run :
  MainAws.transcribe_audio Cases.query_fails "s3://calls/a.mp3" [] =
    (Raise Cases.throttled,
     [ StartTranscriptionJob "transcription_job_1700000000" "s3://calls/a.mp3"
                             "mp3" "en-US";
       GetTranscriptionJob "transcription_job_1700000000"; Sleep 5;
       GetTranscriptionJob "transcription_job_1700000000";
       Obs.batch_error Cases.throttled ]).
Proof.
  refine (proj2 (transcribe_audio_stops_at_first_failure
                   Cases.query_fails "s3://calls/a.mp3" [])
            [Scenario.in_progress] Cases.throttled [Return Scenario.completed]
            _ _ _); try reflexivity.
  repeat constructor.
Defined.

Section JobNameOfSecond.

Import MainAws.

Lemma int_of_float_within (t : Q) (s : Z) :
  (0 <= s)%Z -> (inject_Z s <= t)%Q -> (t < inject_Z (s + 1))%Q ->
  int_of_float t = s.
Proof.
  destruct t as [n d]. unfold int_of_float, Qle, Qlt, inject_Z.
  cbn [Qnum Qden]. intros Hs Hle Hlt.
  assert (Hn : (0 <= n)%Z) by nia.
  rewrite Z.quot_div_nonneg by lia.
  symmetry. apply (Z.div_unique n (Z.pos d) s (n - s * Z.pos d)); lia.
Qed.

(** X16: every invocation whose clock reading lies in the second that
    starts at the whole number [s >= 0] (that is, [s <= time.time() < s + 1])
    submits its job under the name "transcription_job_" followed by [s]
    in decimal. *)
Theorem job_name_within_second (w : BatchWorld) (audio_file_url : string) (s : Z) :
  (0 <= s)%Z ->
  (inject_Z s <= time_time w)%Q ->
  (time_time w < inject_Z (s + 1))%Q ->
  submitted_job_name (snd (transcribe_audio w audio_file_url []))
  = Some ("transcription_job_" ++ str_of_int s)%string.
Proof.
  intros Hs Hle Hlt.
  destruct (transcribe_audio_submits w audio_file_url []) as (ext & E).
  rewrite E. cbn [app submitted_job_name]. unfold job_name_at.
  now rewrite (int_of_float_within _ _ Hs Hle Hlt).
Qed.

End JobNameOfSecond.

(** The clock reads 1700000000.25. *)
Lemma job_name_within_second_run :
  MainAws.submitted_job_name
    (snd (MainAws.transcribe_audio Scenario.first_call "s3://calls/a.mp3" []))
  = Some "transcription_job_1700000000".
Proof.
  refine (job_name_within_second Scenario.first_call "s3://calls/a.mp3"
            1700000000 _ _ _).
  - lia.
  - unfold Qle. cbn. lia.
  - unfold Qlt. cbn. lia.
Defined.

Section DocumentShape.

Import MainAws.

(** X8: the lookup [body["results"]["transcripts"][0]["transcript"]]
    returns a value exactly when the body is an object whose "results"
    is an object, whose "transcripts" is a non-empty list, whose first
    element is an object with a "transcript" key; the value is the one
    under that key, and the other transcripts and keys play no part. *)
Theorem transcript_field_returns_iff (body v : Json) :
  transcript_field body = Return v <->
  exists fields results_fields first_fields others,
    body = JObj fields
    /\ dict_get fields "results" = Some (JObj results_fields)
    /\ dict_get results_fields "transcripts"
       = Some (JArr (JObj first_fields :: others))
    /\ dict_get first_fields "transcript" = Some v.
Proof.
  unfold transcript_field, and_then. split.
  - destruct body as [| | | | | fields]; try discriminate.
    unfold getitem_key at 1.
    destruct (dict_get fields "results") as [results |] eqn:R; [| discriminate].
    destruct results as [| | | | | results_fields]; try discriminate.
    unfold getitem_key at 1.
    destruct (dict_get results_fields "transcripts") as [ts |] eqn:T;
      [| discriminate].
    destruct ts as [| | | s | items |]; try discriminate.
    + destruct s; discriminate.
    + destruct items as [| first others]; [discriminate |].
      cbn [getitem_0].
      destruct first as [| | | | | first_fields]; try discriminate.
      unfold getitem_key.
      destruct (dict_get first_fields "transcript") as [x |] eqn:F;
        [| discriminate].
      intros H. inversion H; subst x.
      exists fields, results_fields, first_fields, others. auto.
  - intros (fields & results_fields & first_fields & others & -> & R & T & F).
    unfold getitem_key at 1. rewrite R.
    unfold getitem_key at 1. rewrite T.
    cbn [getitem_0]. unfold getitem_key. now rewrite F.
Qed.

End DocumentShape.

(* ================================================================== *)
(** ** Further properties: outbound calls and the two synthesizers *)
(* ================================================================== *)

Section OutboundFurther.

Variable cfg : MainAws.Settings.
Variable tel : MainAws.Telephony.

(** X9: for every non-empty destination, whatever its form, the call is
    constructed with that destination as it is, the configured base URL
    and caller number; [start()] is invoked only if the construction
    returned; and exactly one record is logged: DEBUG when both
    returned, ERROR with the exception otherwise. *)
Theorem start_outbound_call_trace (c : ascii) (rest : string) (tr : Trace) :
  let number := String c rest in
  let args wiring :=
    mkCallArgs (MainAws.BASE_URL cfg) number (MainAws.TWILIO_PHONE cfg) wiring in
  Main.start_outbound_call cfg tel (Some number) tr
  = (Return tt, tr ++ Obs.outbound_events tel (args ElevenLabsConfig))
  /\ MainAws.start_outbound_call cfg tel (Some number) tr
     = (Return tt, tr ++ Obs.outbound_events tel (args AwsCallables)).
Proof.
  cbv zeta.
  unfold Main.start_outbound_call, MainAws.start_outbound_call, Obs.outbound_events,
    try_except, call, logger_debug, logger_error.
  unfold bind, emit, lift, ret. cbn [truthy to_phone].
  split;
    match goal with
    | |- context [MainAws.OutboundCall_init tel ?a] =>
        destruct (MainAws.OutboundCall_init tel a) as [[] |];
        [destruct (MainAws.OutboundCall_start tel a) as [[] |] |]
    end; now rewrite <- ?app_assoc.
Qed.

End OutboundFurther.

Section SynthesizersFurther.

Variable polly_client : Main1.PollyClient.

Lemma drop_logs_app (tr tr' : Trace) :
  Obs.drop_logs (tr ++ tr') = Obs.drop_logs tr ++ Obs.drop_logs tr'.
Proof. apply filter_app. Qed.

(** X10: the synthesizer of main1.py ([CustomSynthesizer.synthesize])
    and the one of main_aws.py ([AWSPollySynthesizer.synthesize]) behave
    alike: for every client and text they give the same outcome and
    make the same calls on Polly, in the same order; they differ in
    their log records only. *)
Theorem synthesizers_agree_up_to_logging (text : string) (tr : Trace) :
  let run1 := Main1.CustomSynthesizer_synthesize polly_client text tr in
  let run2 := MainAws.synthesize polly_client text tr in
  fst run1 = fst run2
  /\ Obs.drop_logs (snd run1) = Obs.drop_logs (snd run2).
Proof.
  cbv zeta.
  unfold Main1.CustomSynthesizer_synthesize, Main1.synthesize_speech,
    MainAws.synthesize, try_except, call, logger_debug, logger_error.
  unfold bind, emit, lift, ret, raise.
  destruct (polly_client text "Joanna" "mp3") as [r |];
    [destruct (Main1.AudioStream_read r) |];
    cbn [fst snd]; split; try reflexivity;
    rewrite !drop_logs_app; cbn; now rewrite ?app_nil_r.
Qed.

End SynthesizersFurther.

(* ================================================================== *)
(** ** Further properties: the start-up block *)
(* ================================================================== *)

Section StartUp.

Import Boot.

Lemma list_index_first (x : string) (pre rest : list string) :
  contains x pre = false ->
  list_index x (pre ++ x :: rest) = Return (length pre).
Proof.
  induction pre as [| y pre IH]; cbn [contains existsb app list_index length].
  - intros _. now rewrite String.eqb_refl.
  - intros H. apply orb_false_iff in H. destruct H as [Hy Hpre].
    rewrite String.eqb_sym in Hy. rewrite Hy.
    unfold contains in IH. now rewrite (IH Hpre).
Qed.

Lemma contains_middle (x : string) (pre rest : list string) :
  contains x (pre ++ x :: rest) = true.
Proof.
  unfold contains. rewrite existsb_app. cbn [existsb].
  now rewrite String.eqb_refl, orb_true_r.
Qed.

Lemma port_of_argv_absent (argv : list string) :
  contains "--port" argv = false ->
  port_of_argv argv = Return (PortDefault 3000).
Proof. unfold port_of_argv. now intros ->. Qed.

Lemma port_of_argv_given (pre post : list string) (v : string) :
  contains "--port" pre = false ->
  port_of_argv (pre ++ "--port" :: v :: post) = Return (PortArg v).
Proof.
  intros H. unfold port_of_argv.
  rewrite contains_middle, (list_index_first _ _ _ H). cbn [and_then].
  unfold list_getitem.
  rewrite nth_error_app2 by lia.
  replace (length pre + 1 - length pre)%nat with 1%nat by lia.
  reflexivity.
Qed.

Lemma port_of_argv_dangling (pre : list string) :
  contains "--port" pre = false ->
  port_of_argv (pre ++ ["--port"])
  = Raise (mkExc "IndexError" "list index out of range").
Proof.
  intros H. unfold port_of_argv.
  rewrite contains_middle, (list_index_first _ _ _ H). cbn [and_then].
  unfold list_getitem.
  rewrite (proj2 (nth_error_None _ _)); [reflexivity |].
  rewrite length_app. cbn [length]. lia.
Qed.

(** X11: the port handed to ngrok is the integer 3000 when "--port" is
    not among the arguments; otherwise it is the argument that follows
    the first "--port", as a string and whatever it is; and when the
    first "--port" is the last argument the expression raises
    IndexError. *)
Theorem port_of_argv_spec (argv : list string) :
  (contains "--port" argv = false ->
   port_of_argv argv = Return (PortDefault 3000))
  /\ (forall pre v post,
         contains "--port" pre = false ->
         argv = pre ++ "--port" :: v :: post ->
         port_of_argv argv = Return (PortArg v))
  /\ (forall pre,
         contains "--port" pre = false ->
         argv = pre ++ ["--port"] ->
         port_of_argv argv = Raise (mkExc "IndexError" "list index out of range")).
Proof.
  split; [apply port_of_argv_absent | split].
  - intros pre v post H ->. now apply port_of_argv_given.
  - intros pre H ->. now apply port_of_argv_dangling.
Qed.

Variable env : Env.
Variable ngrok : Ngrok.

Lemma resolve_base_url_without_env (argv : list string) (tr : list BootEvent) :
  truthy (env "BASE_URL") = false ->
  auth_returns env ngrok ->
  resolve_base_url env argv ngrok tr
  = match port_of_argv argv with
    | Raise e => (Raise e, tr ++ auth_events env)
    | Return port =>
        match connect_public_url ngrok port with
        | Raise e => (Raise e, tr ++ auth_events env ++ [NgrokConnect port])
        | Return public_url =>
            let base := str_replace "https://" "" public_url in
            (Return base,
             tr ++ auth_events env
                ++ [NgrokConnect port;
                    BootLog DEBUG "BASE_URL set to: " (ArgStr base)])
        end
    end.
Proof.
  intros Hbase Hauth. unfold resolve_base_url, tunnel_base_url. cbv zeta.
  rewrite Hbase. unfold auth_returns in Hauth. unfold auth_events.
  unfold bbind, bcall, blift, bret.
  destruct (truthy (env "NGROK_AUTH_TOKEN")).
  - rewrite (Hauth eq_refl).
    destruct (port_of_argv argv) as [port |]; [| reflexivity].
    destruct (connect_public_url ngrok port); cbv zeta;
      now rewrite <- ?app_assoc.
  - destruct (port_of_argv argv) as [port |]; [| now rewrite app_nil_r].
    destruct (connect_public_url ngrok port); cbv zeta;
      now rewrite <- ?app_assoc.
Qed.

(** X12: a non-empty BASE_URL of the environment is taken as it is: ngrok
    is not called at all, the command line is not looked at (a "--port"
    without a value does no harm), and the only effect is the DEBUG
    record. *)
Theorem resolve_base_url_prefers_env (argv : list string)
    (tr : list BootEvent) (c : ascii) (rest : string) :
  env "BASE_URL" = Some (String c rest) ->
  resolve_base_url env argv ngrok tr
  = (Return (String c rest),
     tr ++ [BootLog DEBUG "BASE_URL set to: " (ArgStr (String c rest))]).
Proof.
  intros H. unfold resolve_base_url. cbv zeta. rewrite H. reflexivity.
Qed.

(** X13: without a usable BASE_URL (absent or empty) the block opens
    exactly one tunnel, to the port read from the command line, after
    having set the auth token if and only if NGROK_AUTH_TOKEN is
    non-empty; BASE_URL becomes the tunnel's public URL with every
    "https://" removed, and is logged. *)
Theorem resolve_base_url_opens_one_tunnel (argv : list string)
    (tr : list BootEvent) (port : Port) (public_url : string) :
  truthy (env "BASE_URL") = false ->
  auth_returns env ngrok ->
  port_of_argv argv = Return port ->
  connect_public_url ngrok port = Return public_url ->
  let base := str_replace "https://" "" public_url in
  resolve_base_url env argv ngrok tr
  = (Return base,
     tr ++ auth_events env
        ++ [NgrokConnect port; BootLog DEBUG "BASE_URL set to: " (ArgStr base)]).
Proof.
  intros Hbase Hauth Hport Hconnect.
  rewrite resolve_base_url_without_env by assumption.
  now rewrite Hport, Hconnect.
Qed.

(** X14: without a usable BASE_URL, a command line whose first "--port"
    is its last argument ends the start-up with IndexError before any
    tunnel is opened and before anything is logged; the auth token, if
    any, has already been set. *)
Theorem resolve_base_url_dangling_port (pre : list string) (tr : list BootEvent) :
  truthy (env "BASE_URL") = false ->
  auth_returns env ngrok ->
  contains "--port" pre = false ->
  resolve_base_url env (pre ++ ["--port"]) ngrok tr
  = (Raise (mkExc "IndexError" "list index out of range"), tr ++ auth_events env).
Proof.
  intros Hbase Hauth Hpre.
  rewrite resolve_base_url_without_env by assumption.
  now rewrite port_of_argv_dangling.
Qed.

Lemma replace_without_occurrence (old new s : string) :
  occurs old s = false -> replace_from old new 0 s = s.
Proof.
  induction s as [| c s IH]; [reflexivity |].
  cbn [occurs replace_from]. intros H.
  apply orb_false_iff in H. destruct H as [Hp Ho].
  rewrite Hp. now rewrite IH.
Qed.

Lemma replace_https_prefix (host : string) :
  replace_from "https://" "" 0 ("https://" ++ host) = replace_from "https://" "" 0 host.
Proof. reflexivity. Qed.

(** X15: when the tunnel's public URL is "https://" followed by a host in
    which "https://" does not occur again, BASE_URL is that host; a
    public URL in which "https://" does not occur at all (an "http://"
    one, say) is kept whole, scheme included. *)
Theorem base_url_drops_https_scheme (argv : list string) (tr : list BootEvent)
    (port : Port) (host : string) :
  truthy (env "BASE_URL") = false ->
  auth_returns env ngrok ->
  port_of_argv argv = Return port ->
  occurs "https://" host = false ->
  (connect_public_url ngrok port = Return ("https://" ++ host)%string ->
   fst (resolve_base_url env argv ngrok tr) = Return host)
  /\ (connect_public_url ngrok port = Return host ->
      fst (resolve_base_url env argv ngrok tr) = Return host).
Proof.
  intros Hbase Hauth Hport Hocc.
  rewrite resolve_base_url_without_env by assumption. rewrite Hport.
  split; intros ->; cbv zeta; cbn [fst]; f_equal; unfold str_replace.
  - rewrite replace_https_prefix. now apply replace_without_occurrence.
  - now apply replace_without_occurrence.
Qed.

End StartUp.

(** "--port" with nothing after it. *)
Lemma port_of_argv_dangling_run :
  Boot.port_of_argv ["main.py"; "--port"]
  = Raise (mkExc "IndexError" "list index out of range").
Proof.
  exact (proj2 (proj2 (port_of_argv_spec ["main.py"; "--port"]))
           ["main.py"] eq_refl eq_refl).
Defined.

(** BASE_URL is set: used as it is, although "--port" has no value. *)
Lemma resolve_base_url_env_run :
  Boot.resolve_base_url Cases.env_with_base_url ["main.py"; "--port"]
    Cases.ngrok_ok []
  = (Return "voice.example.org",
     [Boot.BootLog DEBUG "BASE_URL set to: " (ArgStr "voice.example.org")]).
Proof.
  exact (resolve_base_url_prefers_env Cases.env_with_base_url Cases.ngrok_ok
           ["main.py"; "--port"] [] "v" "oice.example.org" eq_refl).
Defined.

(** No BASE_URL, an auth token, "--port 8080". *)
Lemma resolve_base_url_tunnel_run :
  Boot.resolve_base_url Cases.env_with_token ["main.py"; "--port"; "8080"]
    Cases.ngrok_ok []
  = (Return "abc.ngrok.io",
     [ Boot.NgrokSetAuthToken "tok_1";
       Boot.NgrokConnect (Boot.PortArg "8080");
       Boot.BootLog DEBUG "BASE_URL set to: " (ArgStr "abc.ngrok.io") ]).
Proof.
  exact (resolve_base_url_opens_one_tunnel Cases.env_with_token Cases.ngrok_ok
           ["main.py"; "--port"; "8080"] [] (Boot.PortArg "8080")
           "https://abc.ngrok.io" eq_refl (fun _ => eq_refl) eq_refl eq_refl).
Defined.

(** No BASE_URL, an auth token, "--port" without a value. *)
Lemma resolve_base_url_dangling_port_run :
  Boot.resolve_base_url Cases.env_with_token ["main.py"; "--port"]
    Cases.ngrok_ok []
  = (Raise (mkExc "IndexError" "list index out of range"),
     [Boot.NgrokSetAuthToken "tok_1"]).
Proof.
  exact (resolve_base_url_dangling_port Cases.env_with_token Cases.ngrok_ok
           ["main.py"] [] eq_refl (fun _ => eq_refl) eq_refl).
Defined.

(** An "https://" tunnel loses its scheme, an "http://" one keeps it. *)
Lemma base_url_scheme_run :
  fst (Boot.resolve_base_url Cases.no_env ["main.py"] Cases.ngrok_ok [])
    = Return "abc.ngrok.io"
  /\ fst (Boot.resolve_base_url Cases.no_env ["main.py"] Cases.ngrok_plain_http [])
     = Return "http://abc.ngrok.io".
Proof.
  split.
  - exact (proj1 (base_url_drops_https_scheme Cases.no_env Cases.ngrok_ok
                    ["main.py"] [] (Boot.PortDefault 3000) "abc.ngrok.io"
                    eq_refl (fun H => match Bool.diff_false_true H with end)
                    eq_refl eq_refl) eq_refl).
  - exact (proj2 (base_url_drops_https_scheme Cases.no_env Cases.ngrok_plain_http
                    ["main.py"] [] (Boot.PortDefault 3000) "http://abc.ngrok.io"
                    eq_refl (fun H => match Bool.diff_false_true H with end)
                    eq_refl eq_refl) eq_refl).
Defined.
